(** * DecoPlan mock RAG layer: furniture retrieval and room coverage

    A shallow embedding of [lib/mockRAG.ts] together with the catalog data of
    [lib/furnitureData.ts] and the types of [types/furniture.ts] and
    [types/chat.ts], and of the code of the page that uses them: the state
    updates of [app/page.tsx], the toggle-all button and the statistics of
    [components/FurniturePanel.tsx], the submit handler of
    [components/ChatBox.tsx] and the colour strings of [rgbToHex].

    Modelling conventions.
    - A JavaScript [number] is an IEEE 754 binary64 value: Rocq's primitive
      [float], whose [+], [*], [/] and comparisons round and compare exactly
      as the JavaScript operators do.  [Math.round] is written out below,
      and proved to be the function that ECMAScript defines.
    - A string is a [string] holding the bytes of its UTF-8 encoding (a
      surrogate that stands alone is written as the three bytes of its
      code point), so ASCII text is written as it is and every other
      character is a sequence of bytes from 128 up.  Where the code puts
      strings together an ASCII text stands at the seam, so that the bytes
      put together are the encoding of the result.  The keywords searched
      for are ASCII, and an ASCII text occurs in a string exactly where its
      bytes occur in the encoding.  [toLowerCase] folds the letters [A]-[Z]
      of ASCII text; on any other text it is the Unicode case conversion,
      whose tables are not in this repository and which is left open
      ([UnicodeData]).  [trim] knows every white space character of
      ECMAScript.
    - An array is a [list].  [Array.prototype.sort] is a stable sort driven
      by the sign of the comparator; it is modelled by a stable insertion
      sort over the same comparator.
    - [new Date()] is the reading [now] of the clock, passed explicitly; the
      [await simulateDelay(..)] only postpones that reading.
    - A React state is the value it holds; an updater handed to a state
      setter is a function on that value, and queued updaters run in the
      order they were queued. *)

From Stdlib Require Import ZArith List String Ascii Bool Lia.
From Stdlib Require Import Sorting.Permutation Sorting.Sorted.
From Stdlib Require Import QArith_base Qround.
From Stdlib Require Import Floats Uint63.
Import ListNotations.

Close Scope Q_scope.

Set Warnings "-inexact-float".

(* ------------------------------------------------------------------ *)
(** ** Numbers *)

Module JSNumber.

Local Open Scope float_scope.

(** The integer [n], as a number (exact for [|n| < 2^53]). *)
Definition of_Z (n : Z) : float :=
  if (n <? 0)%Z then - of_uint63 (Uint63.of_Z (- n))
  else of_uint63 (Uint63.of_Z n).

(** [Math.round x]: the integral number closest to [x], the one closer to
    +infinity on a tie; [x] itself when [x] is integral, infinite or NaN;
    a zero result keeps the sign of [x]. *)
Definition Math_round (x : float) : float :=
  match Prim2SF x with
  | S754_finite s m e =>
      if (0 <=? e)%Z then x
      else
        let twice := (2 * (if s then Z.neg m else Z.pos m))%Z in
        let n := ((twice + 2 ^ (- e)) / 2 ^ (1 - e))%Z in
        if (n =? 0)%Z then (if s then -0 else 0) else of_Z n
  | _ => x
  end.

(** [x] is NaN, +Infinity or -Infinity. *)
Definition not_finite (x : float) : Prop :=
  x = nan \/ x = infinity \/ x = neg_infinity.

End JSNumber.

Import JSNumber.

(* ------------------------------------------------------------------ *)
(** ** Strings and arrays *)

Module JSString.

Local Open Scope string_scope.

(** The UTF-8 bytes of the code point [cp]. *)
Definition utf8_encode (cp : N) : string :=
  let byte (n : N) := ascii_of_N n in
  let continuation (n : N) := byte (128 + n mod 64)%N in
  if (cp <? 128)%N then String (byte cp) ""
  else if (cp <? 2048)%N then
    String (byte (192 + cp / 64)%N) (String (continuation cp) "")
  else if (cp <? 65536)%N then
    String (byte (224 + cp / 4096)%N)
      (String (continuation (cp / 64)%N) (String (continuation cp) ""))
  else
    String (byte (240 + cp / 262144)%N)
      (String (continuation (cp / 4096)%N)
         (String (continuation (cp / 64)%N) (String (continuation cp) ""))).

(** Every byte of [s] is below 128: [s] is ASCII text. *)
Fixpoint ascii_only (s : string) : bool :=
  match s with
  | EmptyString => true
  | String c rest => (nat_of_ascii c <? 128)%nat && ascii_only rest
  end.

Definition lower_char (c : ascii) : ascii :=
  let n := nat_of_ascii c in
  if ((65 <=? n) && (n <=? 90))%nat then ascii_of_nat (n + 32) else c.

(** [s.toLowerCase()] on ASCII text: the letters [A]-[Z] are folded. *)
Fixpoint ascii_lower (s : string) : string :=
  match s with
  | EmptyString => EmptyString
  | String c rest => String (lower_char c) (ascii_lower rest)
  end.

(** [s.includes(searchString)]: [searchString] occurs at some position. *)
Fixpoint includes (s searchString : string) : bool :=
  if String.prefix searchString s then true
  else match s with
       | EmptyString => false
       | String _ rest => includes rest searchString
       end.

(** The loop of [Array.prototype.join]: [R] is the text built so far and
    [first] tells whether the next element is the one at index 0. *)
Fixpoint join_loop (sep R : string) (first : bool) (elements : list string)
  : string :=
  match elements with
  | [] => R
  | e :: rest =>
      join_loop sep ((if first then R else R ++ sep) ++ e) false rest
  end.

(** [elements.join(sep)] *)
Definition join (elements : list string) (sep : string) : string :=
  join_loop sep "" true elements.

(** [array.includes(v)] on an array of strings. *)
Definition array_includes (array : list string) (v : string) : bool :=
  existsb (String.eqb v) array.

(** The white space of [String.prototype.trim]: the code points of
    WhiteSpace and LineTerminator, each as its UTF-8 bytes.  In order: TAB,
    LF, VT, FF, CR, SP, NBSP (U+00A0), U+1680, U+2000 to U+200A, LS (U+2028),
    PS (U+2029), U+202F, U+205F, U+3000 and ZWNBSP (U+FEFF). *)
Definition white_space : list string :=
  map utf8_encode
    [ 0x9; 0xA; 0xB; 0xC; 0xD; 0x20; 0xA0; 0x1680;
      0x2000; 0x2001; 0x2002; 0x2003; 0x2004; 0x2005; 0x2006; 0x2007;
      0x2008; 0x2009; 0x200A; 0x2028; 0x2029; 0x202F; 0x205F; 0x3000;
      0xFEFF ]%N.

(** What follows [token] in [s], when [s] starts with [token]. *)
Fixpoint strip_prefix (token s : string) : option string :=
  match token with
  | EmptyString => Some s
  | String a token' =>
      match s with
      | String b s' => if Ascii.eqb a b then strip_prefix token' s' else None
      | EmptyString => None
      end
  end.

(** What follows the white space character [s] starts with, if it starts
    with one. *)
Fixpoint strip_any (tokens : list string) (s : string) : option string :=
  match tokens with
  | [] => None
  | token :: others =>
      match strip_prefix token s with
      | Some rest => Some rest
      | None => strip_any others s
      end
  end.

Definition strip_white_space (s : string) : option string :=
  strip_any white_space s.

(** [s.trimStart()]: white space characters are taken off the front for as
    long as there is one; [fuel] bounds their number. *)
Fixpoint trimStart_loop (fuel : nat) (s : string) : string :=
  match fuel with
  | O => s
  | S fuel' =>
      match strip_white_space s with
      | Some rest => trimStart_loop fuel' rest
      | None => s
      end
  end.

Definition trimStart (s : string) : string :=
  trimStart_loop (String.length s) s.

(** [s] is one white space character. *)
Definition is_white_space (s : string) : bool :=
  existsb (String.eqb s) white_space.

(** [s.trimEnd()]: what is kept of [s] is its first byte and what is kept of
    the rest, unless that is one white space character. *)
Fixpoint trimEnd (s : string) : string :=
  match s with
  | EmptyString => EmptyString
  | String c rest =>
      let kept := String c (trimEnd rest) in
      if is_white_space kept then EmptyString else kept
  end.

(** [s.trim()] *)
Definition trim (s : string) : string := trimEnd (trimStart s).

End JSString.

Import JSString.

(** What [String.prototype.toLowerCase] makes of a text that is not all
    ASCII: its Unicode Default Case Conversion, which is read off the
    Unicode character database.  That database is not part of this
    repository, so the conversion is a parameter of the development, and
    what is proved holds for every conversion. *)
Class UnicodeData := { toLowerCase_unicode : string -> string }.

(** Lower-casing as far as ASCII letters come out of it: the letters
    [A]-[Z] are folded, U+0130 (capital I with a dot above) becomes "i"
    followed by U+0307, the Kelvin sign U+212A becomes "k", and every
    other character is left as it is. *)
Fixpoint lower_letters (s : string) : string :=
  match s with
  | EmptyString => EmptyString
  | String c1 rest1 =>
      let otherwise := String (lower_char c1) (lower_letters rest1) in
      match rest1 with
      | String c2 rest2 =>
          if String.eqb (String c1 (String c2 "")) (utf8_encode 0x130)
          then ("i" ++ utf8_encode 0x307 ++ lower_letters rest2)%string
          else
            match rest2 with
            | String c3 rest3 =>
                if String.eqb (String c1 (String c2 (String c3 "")))
                     (utf8_encode 0x212A)
                then String "k" (lower_letters rest3)
                else otherwise
            | EmptyString => otherwise
            end
      | EmptyString => otherwise
      end
  end.

(** Unicode data by which [toLowerCase] is [lower_letters].  They are not
    those of Unicode, which change more characters outside ASCII; they
    serve to run the code on given queries. *)
Definition letters_only : UnicodeData :=
  {| toLowerCase_unicode := lower_letters |}.

Module JSArray.

(** [array.slice(start, end)] for integral arguments: a negative index
    counts from the end, and both ends are clamped to the array. *)
Definition slice {A : Type} (array : list A) (start end_ : Z) : list A :=
  let len := Z.of_nat (List.length array) in
  let k := (if start <? 0 then Z.max (len + start) 0 else Z.min start len)%Z in
  let final := (if end_ <? 0 then Z.max (len + end_) 0 else Z.min end_ len)%Z in
  firstn (Z.to_nat (final - k)) (skipn (Z.to_nat k) array).

Section Sort.

Context {A : Type}.

(** The comparator: a positive result puts its first argument after its
    second. *)
Variable compareFn : A -> A -> float.

Definition sorts_after (a b : A) : bool := (0 <? compareFn a b)%float.

(** Neither of the two has to come after the other. *)
Definition tied (a b : A) : bool :=
  negb (sorts_after a b) && negb (sorts_after b a).

Fixpoint insert (a : A) (sorted : list A) : list A :=
  match sorted with
  | [] => [a]
  | b :: rest =>
      if sorts_after a b then b :: insert a rest else a :: sorted
  end.

(** [array.sort(compareFn)] *)
Definition sort (array : list A) : list A := fold_right insert [] array.

End Sort.

End JSArray.

Import JSArray.

(* ------------------------------------------------------------------ *)
(** ** Data model ([types/furniture.ts], [types/chat.ts]) *)

Module Position.
Record t := mk { x : float; y : float; z : float }.
End Position.

Module Dimensions.
Record t := mk { width : float; height : float; depth : float }.
End Dimensions.

Module Color.
Record t := mk { r : float; g : float; b : float }.
End Color.

Inductive FurnitureCategory :=
  sofa | table | chair | bed | cabinet | shelf | lamp | other.

(** The string a category is at run time. *)
Definition category_string (c : FurnitureCategory) : string :=
  match c with
  | sofa => "sofa" | table => "table" | chair => "chair" | bed => "bed"
  | cabinet => "cabinet" | shelf => "shelf" | lamp => "lamp"
  | other => "other"
  end.

(** [Omit<Furniture, 'visible'>]: a record of a catalog. *)
Module CatalogRecord.
Record t := mk {
  id : string;
  name : string;
  category : FurnitureCategory;
  position : Position.t;
  dimensions : Dimensions.t;
  color : Color.t;
  confidenceScore : float;
  description : option string
}.
End CatalogRecord.

Module Furniture.
Record t := mk {
  id : string;
  name : string;
  category : FurnitureCategory;
  position : Position.t;
  dimensions : Dimensions.t;
  color : Color.t;
  confidenceScore : float;
  visible : bool;
  description : option string
}.
End Furniture.

Module RAGRetrievalResult.
Record t := mk {
  furniture : list Furniture.t;
  timestamp : Z;
  query : option string
}.
End RAGRetrievalResult.

Inductive RoomStyle :=
  modern | japanese | minimalist | scandinavian | industrial | traditional.

Module RoomCoverage.
Record t := mk {
  totalFootprint : float;
  coveragePercentage : float;
  itemCount : nat
}.
End RoomCoverage.

Inductive MessageRole := user | assistant | system.

Module ChatMessage.
Record t := mk {
  id : string;
  role : MessageRole;
  content : string;
  timestamp : Z
}.
End ChatMessage.

(** The state of the page. *)
Module Page.
Record t := mk {
  furniture : list Furniture.t;
  isLoading : bool;
  chatMessages : list ChatMessage.t
}.
End Page.

(* ------------------------------------------------------------------ *)
(** ** Catalogs ([lib/furnitureData.ts]) *)

Definition item (id name : string) (category : FurnitureCategory)
  (position : float * float * float) (dimensions : float * float * float)
  (color : float * float * float) (confidenceScore : float)
  (description : string) : CatalogRecord.t :=
  let '(px, py, pz) := position in
  let '(w, h, d) := dimensions in
  let '(cr, cg, cb) := color in
  {| CatalogRecord.id := id;
     CatalogRecord.name := name;
     CatalogRecord.category := category;
     CatalogRecord.position := Position.mk px py pz;
     CatalogRecord.dimensions :=
       {| Dimensions.width := w; Dimensions.height := h;
          Dimensions.depth := d |};
     CatalogRecord.color := Color.mk cr cg cb;
     CatalogRecord.confidenceScore := confidenceScore;
     CatalogRecord.description := Some description |}.

Definition MOCK_FURNITURE_DATABASE : list CatalogRecord.t :=
  ([ item "sofa-001" "Modern L-Shaped Sofa" sofa
       (-2, 0.4, 0) (2.5, 0.8, 1.5) (100, 100, 120) 0.95
       "Comfortable modern L-shaped sofa perfect for HDB living rooms";
     item "table-001" "Coffee Table" table
       (-1, 0.2, 2) (1.2, 0.4, 0.6) (139, 90, 60) 0.92
       "Wooden coffee table with storage compartment";
     item "table-002" "Dining Table" table
       (3, 0.4, -2) (1.6, 0.8, 0.9) (160, 120, 80) 0.88
       "4-seater dining table, space-saving design";
     item "chair-001" "Dining Chair" chair
       (2.5, 0.45, -1.5) (0.5, 0.9, 0.5) (80, 80, 80) 0.90
       "Modern dining chair with ergonomic design";
     item "chair-002" "Dining Chair" chair
       (3.5, 0.45, -1.5) (0.5, 0.9, 0.5) (80, 80, 80) 0.90
       "Modern dining chair with ergonomic design";
     item "cabinet-001" "TV Console" cabinet
       (-4, 0.3, 3) (2.0, 0.6, 0.4) (70, 50, 40) 0.87
       "Modern TV console with shelving";
     item "shelf-001" "Wall Shelf Unit" shelf
       (4, 1.0, 2) (1.0, 2.0, 0.3) (200, 200, 200) 0.85
       "Vertical storage shelf unit";
     item "lamp-001" "Floor Lamp" lamp
       (-3, 0.8, -2) (0.3, 1.6, 0.3) (220, 180, 100) 0.83
       "Modern floor lamp with adjustable head";
     item "sofa-002" "Accent Chair" sofa
       (0, 0.4, -3) (0.8, 0.9, 0.8) (180, 140, 100) 0.81
       "Stylish accent chair for additional seating";
     item "table-003" "Side Table" table
       (0.5, 0.3, -3.5) (0.5, 0.6, 0.5) (100, 70, 50) 0.79
       "Compact side table for small spaces" ])%float.

Definition JAPANESE_FURNITURE_DATABASE : list CatalogRecord.t :=
  ([ item "jp-table-001" "Chabudai Low Table" table
       (0, 0.15, 0) (1.2, 0.3, 0.8) (139, 90, 60) 0.96
       "Traditional Japanese low dining table";
     item "jp-sofa-001" "Futon Seating" sofa
       (-2.5, 0.2, -2) (1.8, 0.4, 0.9) (120, 110, 100) 0.94
       "Low-profile Japanese futon seating";
     item "jp-cabinet-001" "Tansu Storage Cabinet" cabinet
       (-4, 0.4, 2) (1.5, 0.8, 0.4) (90, 60, 40) 0.92
       "Traditional Japanese chest of drawers";
     item "jp-lamp-001" "Andon Floor Lamp" lamp
       (-3.5, 0.6, -3) (0.35, 1.2, 0.35) (240, 230, 210) 0.90
       "Traditional Japanese paper lantern lamp";
     item "jp-shelf-001" "Shoji Screen Shelf" shelf
       (4, 0.9, 0) (1.2, 1.8, 0.25) (230, 220, 200) 0.88
       "Japanese-style display shelf with sliding doors";
     item "jp-table-002" "Tea Ceremony Table" table
       (2, 0.12, -2.5) (0.8, 0.25, 0.6) (110, 75, 50) 0.86
       "Small low table for tea ceremonies";
     item "jp-chair-001" "Zaisu Floor Chair" chair
       (0.8, 0.15, 0.5) (0.55, 0.3, 0.55) (100, 90, 80) 0.85
       "Japanese legless floor chair";
     item "jp-chair-002" "Zaisu Floor Chair" chair
       (-0.8, 0.15, 0.5) (0.55, 0.3, 0.55) (100, 90, 80) 0.85
       "Japanese legless floor chair";
     item "jp-cabinet-002" "Kotatsu Table" table
       (2.5, 0.2, 1.5) (1.0, 0.4, 1.0) (130, 85, 55) 0.83
       "Heated table with blanket (winter essential)";
     item "jp-other-001" "Bonsai Display Stand" other
       (3.5, 0.35, -1) (0.5, 0.7, 0.4) (140, 100, 70) 0.80
       "Decorative stand for bonsai or ikebana" ])%float.

(* ------------------------------------------------------------------ *)
(** ** The mock RAG layer ([lib/mockRAG.ts]) *)

Section DecoPlan.

Context {unicode : UnicodeData}.

(** [s.toLowerCase()]: on ASCII text the Unicode Default Case Conversion
    folds the letters [A]-[Z] and nothing else; on any other text it is
    what the Unicode data make it. *)
Definition toLowerCase (s : string) : string :=
  if ascii_only s then ascii_lower s else toLowerCase_unicode s.

(** Detects room style from user query, by keyword matching. *)
Definition detectRoomStyle (query : string) : RoomStyle :=
  let lowerQuery := toLowerCase query in
  if includes lowerQuery "japanese" || includes lowerQuery "japan" ||
     includes lowerQuery "zen" || includes lowerQuery "tatami"
  then japanese
  else if includes lowerQuery "minimalist" || includes lowerQuery "minimal"
  then minimalist
  else if includes lowerQuery "scandinavian" || includes lowerQuery "nordic"
  then scandinavian
  else if includes lowerQuery "industrial" then industrial
  else if includes lowerQuery "traditional" then traditional
  else modern.

(** Gets furniture database based on detected style. *)
Definition getFurnitureByStyle (style : RoomStyle) : list CatalogRecord.t :=
  match style with
  | japanese => JAPANESE_FURNITURE_DATABASE
  | modern | minimalist | scandinavian | industrial | traditional =>
      MOCK_FURNITURE_DATABASE
  end.

(** The object literal [{ ...item, visible: v }]. *)
Definition with_visible (v : bool) (item : CatalogRecord.t) : Furniture.t :=
  {| Furniture.id := CatalogRecord.id item;
     Furniture.name := CatalogRecord.name item;
     Furniture.category := CatalogRecord.category item;
     Furniture.position := CatalogRecord.position item;
     Furniture.dimensions := CatalogRecord.dimensions item;
     Furniture.color := CatalogRecord.color item;
     Furniture.confidenceScore := CatalogRecord.confidenceScore item;
     Furniture.visible := v;
     Furniture.description := CatalogRecord.description item |}.

(** The comparator [(a, b) => b.confidenceScore - a.confidenceScore]. *)
Definition by_confidence (a b : Furniture.t) : float :=
  (Furniture.confidenceScore b - Furniture.confidenceScore a)%float.

(** Mock RAG retrieval.  Both parameters are passed explicitly (a call that
    omits them gets "HDB living room furniture" and 10); [now] is what
    [new Date()] reads once [simulateDelay(1500)] has passed. *)
Definition retrieveFurniture (query : string) (maxResults : Z) (now : Z)
  : RAGRetrievalResult.t :=
  let style := detectRoomStyle query in
  let furnitureDatabase := getFurnitureByStyle style in
  let retrievedFurniture :=
    sort by_confidence
      (map (with_visible true) (slice furnitureDatabase 0 maxResults)) in
  {| RAGRetrievalResult.furniture := retrievedFurniture;
     RAGRetrievalResult.timestamp := now;
     RAGRetrievalResult.query := Some query |}.

(** Targeted retrieval for specific furniture categories; [now] is what
    [new Date()] reads once [simulateDelay(1000)] has passed. *)
Definition retrieveFurnitureByCategory (categories : list string) (now : Z)
  : RAGRetrievalResult.t :=
  let retrievedFurniture :=
    sort by_confidence
      (map (with_visible true)
         (filter
            (fun item =>
               array_includes categories
                 (category_string (CatalogRecord.category item)))
            MOCK_FURNITURE_DATABASE)) in
  {| RAGRetrievalResult.furniture := retrievedFurniture;
     RAGRetrievalResult.timestamp := now;
     RAGRetrievalResult.query :=
       Some ("Categories: " ++ join categories ", ")%string |}.

(** The floor area an item stands on. *)
Definition footprint (item : Furniture.t) : float :=
  (Dimensions.width (Furniture.dimensions item) *
   Dimensions.depth (Furniture.dimensions item))%float.

(** The constant [roomArea] of [calculateRoomCoverage]. *)
Definition roomArea (roomWidth roomDepth : float) : float :=
  (roomWidth * roomDepth)%float.

(** Calculates room coverage statistics. *)
Definition calculateRoomCoverage (furniture : list Furniture.t)
  (roomWidth roomDepth : float) : RoomCoverage.t :=
  let visibleFurniture := filter Furniture.visible furniture in
  let totalFootprint :=
    fold_left (fun sum item => sum + footprint item)%float
      visibleFurniture 0%float in
  let roomArea := roomArea roomWidth roomDepth in
  let coveragePercentage := (totalFootprint / roomArea * 100)%float in
  {| RoomCoverage.totalFootprint :=
       (Math_round (totalFootprint * 100) / 100)%float;
     RoomCoverage.coveragePercentage :=
       (Math_round (coveragePercentage * 10) / 10)%float;
     RoomCoverage.itemCount := List.length visibleFurniture |}.

(* ------------------------------------------------------------------ *)
(** ** Specification vocabulary *)

(** [s] contains [keyword]: the keyword occurs somewhere inside [s]. *)
Definition Contains (s keyword : string) : Prop :=
  exists before after, s = (before ++ keyword ++ after)%string.

Definition ContainsAny (s : string) (keywords : list string) : Prop :=
  exists keyword, In keyword keywords /\ Contains s keyword.

Definition japanese_keywords : list string :=
  ["japanese"; "japan"; "zen"; "tatami"]%string.
Definition minimalist_keywords : list string :=
  ["minimalist"; "minimal"]%string.
Definition scandinavian_keywords : list string :=
  ["scandinavian"; "nordic"]%string.
Definition industrial_keywords : list string := ["industrial"%string].
Definition traditional_keywords : list string := ["traditional"%string].

(** The piece of furniture [f] is the catalog record [r] made visible: it
    has every field of the record, with the value the record has, and its
    [visible] is [true]. *)
Definition made_visible (r : CatalogRecord.t) (f : Furniture.t) : Prop :=
  Furniture.id f = CatalogRecord.id r /\
  Furniture.name f = CatalogRecord.name r /\
  Furniture.category f = CatalogRecord.category r /\
  Furniture.position f = CatalogRecord.position r /\
  Furniture.dimensions f = CatalogRecord.dimensions r /\
  Furniture.color f = CatalogRecord.color r /\
  Furniture.confidenceScore f = CatalogRecord.confidenceScore r /\
  Furniture.description f = CatalogRecord.description r /\
  Furniture.visible f = true.

(** [b] does not score higher than [a]. *)
Definition confidence_ge (a b : Furniture.t) : Prop :=
  (Furniture.confidenceScore b <=? Furniture.confidenceScore a)%float = true.

Definition same_confidence (a b : Furniture.t) : bool :=
  (Furniture.confidenceScore b =? Furniture.confidenceScore a)%float.

(** [output] is [input] stably sorted by descending confidence score: the
    same items, no item before one that scores higher, and the items of one
    score in the order they have in [input]. *)
Definition stably_sorted_descending (input output : list Furniture.t) : Prop :=
  Permutation input output /\
  StronglySorted confidence_ge output /\
  forall a, In a input ->
    filter (same_confidence a) output = filter (same_confidence a) input.

(** The areas width x depth of the visible items of a list, added from
    left to right onto [acc]; a hidden item adds nothing. *)
Fixpoint add_visible_footprints (acc : float) (furniture : list Furniture.t)
  : float :=
  match furniture with
  | [] => acc
  | item :: rest =>
      add_visible_footprints
        (if Furniture.visible item
         then (acc + Dimensions.width (Furniture.dimensions item) *
                     Dimensions.depth (Furniture.dimensions item))%float
         else acc)
        rest
  end.

Definition visible_footprint_sum (furniture : list Furniture.t) : float :=
  add_visible_footprints 0%float furniture.

Fixpoint count_visible (furniture : list Furniture.t) : nat :=
  match furniture with
  | [] => 0
  | item :: rest =>
      (if Furniture.visible item then 1 else 0) + count_visible rest
  end.


(** The rational number that a finite number is: [m * 2^e], with its
    sign. *)
Definition exact_value (x : float) : option Q :=
  match Prim2SF x with
  | S754_zero _ => Some (Qmake 0 1)
  | S754_finite s m e =>
      let M := if s then Z.neg m else Z.pos m in
      Some (if (0 <=? e)%Z then inject_Z (M * 2 ^ e)
            else Qmake M (2 ^ Z.to_pos (- e)))
  | _ => None
  end.

(** The number nearest to the integer [n]. *)
Definition nearest_double (n : Z) : float :=
  SF2Prim (binary_normalize prec emax n 0 false).

(** [Math.round] as ECMAScript defines it: a number that is an integer, an
    infinity or NaN is returned as it is; any other [x] gives
    [floor(x + 1/2)], the integer nearest to [x] and the larger one of two
    that are equally near, worked out on the exact value of [x]; a zero
    result has the sign of [x]. *)
Definition round_half_up (x : float) : float :=
  match exact_value x with
  | None => x
  | Some value =>
      if Qeq_bool value (inject_Z (Qfloor value)) then x
      else
        let n := Qfloor (Qplus value (Qmake 1 2)) in
        if (n =? 0)%Z then (if x <? 0 then -0 else 0)%float
        else nearest_double n
  end.

(** Rounding [v] at the decimal place worth [1/scale], by scaling: the
    product [v * scale], a binary64 number itself, is rounded to an
    integer and the integer divided by [scale]. *)
Definition rounded_by (scale v : float) : float :=
  (round_half_up (v * scale) / scale)%float.

(** The records of the default catalog whose category is one of the given
    names, in catalog order. *)
Definition matching_records (categories : list string)
  : list CatalogRecord.t :=
  filter
    (fun r =>
       if in_dec string_dec
            (category_string (CatalogRecord.category r)) categories
       then true else false)
    MOCK_FURNITURE_DATABASE.

(** The binary64 value is an infinity or NaN. *)
Definition sf_not_finite (v : spec_float) : bool :=
  match v with
  | S754_nan | S754_infinity _ => true
  | S754_zero _ | S754_finite _ _ _ => false
  end.

(** A piece of furniture of the given width and depth, for examples. *)
Definition sample_item (width depth : float) (visible : bool) : Furniture.t :=
  with_visible visible
    (item "sample-001" "Sample" other (0, 0, 0)%float
       (width, 1%float, depth) (128, 128, 128)%float 0.5%float "Sample item").

(** Every record of both catalogs, as the retrieval functions emit them. *)
Definition all_catalog_items : list Furniture.t :=
  map (with_visible true)
    (MOCK_FURNITURE_DATABASE ++ JAPANESE_FURNITURE_DATABASE).

(** The checks that make [by_confidence] a consistent comparator on the
    items of [l], and that relate its sign to the order of the scores. *)
Definition consistent_pair (l : list Furniture.t) (a b : Furniture.t) : bool :=
  implb (sorts_after by_confidence a b) (negb (sorts_after by_confidence b a))
  && Bool.eqb (negb (sorts_after by_confidence a b))
       (Furniture.confidenceScore b <=? Furniture.confidenceScore a)%float
  && Bool.eqb (tied by_confidence a b) (same_confidence a b)
  && forallb
       (fun c =>
          implb (negb (sorts_after by_confidence a b)
                 && negb (sorts_after by_confidence b c))
            (negb (sorts_after by_confidence a c))) l.

Definition consistent_on (l : list Furniture.t) : bool :=
  forallb (fun a => forallb (consistent_pair l a) l) l.

Definition in_catalogs (f : Furniture.t) : Prop := In f all_catalog_items.

(* ------------------------------------------------------------------ *)
(** ** Colour helpers ([lib/furnitureData.ts], [components/RoomViewer.tsx]) *)

(** The digit characters of [Number.prototype.toString(radix)]. *)
Definition digit_char (d : Z) : ascii :=
  nth (Z.to_nat d)
    (list_ascii_of_string "0123456789abcdefghijklmnopqrstuvwxyz") "0"%char.

(** The digits of the non-negative integer [n], most significant first, put
    in front of [acc]. *)
Fixpoint digits_loop (fuel : nat) (radix n : Z) (acc : string) : string :=
  match fuel with
  | O => acc
  | S fuel' =>
      let acc' := String (digit_char (n mod radix)) acc in
      if (n / radix =? 0)%Z then acc'
      else digits_loop fuel' radix (n / radix) acc'
  end.

(** [n.toString(radix)] for an integral number [n]: its digits, after a
    minus sign when [n] is negative.  (In radix 10 this is what JavaScript
    writes below 10^21, which covers the clock readings and lengths that
    the page writes.) *)
Definition Number_toString (radix n : Z) : string :=
  let magnitude := Z.abs n in
  let digits :=
    digits_loop (S (Z.to_nat (Z.log2 magnitude))) radix magnitude "" in
  if (n <? 0)%Z then String "-" digits else digits.

(** The arrow function of [rgbToHex]: two hex digits for a channel. *)
Definition channel_hex (x : Z) : string :=
  let hex := Number_toString 16 x in
  if (String.length hex =? 1)%nat then ("0" ++ hex)%string else hex.

(** Helper function to get hex color from RGB, on integral channels.
    [FurnitureMesh] builds its [hexColor] by the same expression. *)
Definition rgbToHex (r g b : Z) : string :=
  ("#" ++ join (map channel_hex [r; g; b]) "")%string.

(** Reading digits back: the value of a digit character, and of a string
    of digits after the value [acc] of the digits before it. *)
Definition digit_value (c : ascii) : option Z :=
  let n := Z.of_nat (nat_of_ascii c) in
  if ((48 <=? n) && (n <=? 57))%Z then Some (n - 48)%Z
  else if ((97 <=? n) && (n <=? 122))%Z then Some (n - 87)%Z
  else None.

Fixpoint parse_digits (radix acc : Z) (s : string) : option Z :=
  match s with
  | EmptyString => Some acc
  | String c rest =>
      match digit_value c with
      | Some d =>
          if (d <? radix)%Z then parse_digits radix (acc * radix + d) rest
          else None
      | None => None
      end
  end.

(** The integer a string of an optional minus sign and digits writes. *)
Definition parse_integer (radix : Z) (s : string) : option Z :=
  match s with
  | EmptyString => None
  | String "-" EmptyString => None
  | String "-" digits => option_map Z.opp (parse_digits radix 0 digits)
  | digits => parse_digits radix 0 digits
  end.

(** The channels a colour string ["#rrggbb"] writes. *)
Definition parse_hex_color (s : string) : option (Z * Z * Z) :=
  match s with
  | String "#" (String r1 (String r2 (String g1 (String g2
      (String b1 (String b2 EmptyString)))))) =>
      match parse_digits 16 0 (String r1 (String r2 EmptyString)),
            parse_digits 16 0 (String g1 (String g2 EmptyString)),
            parse_digits 16 0 (String b1 (String b2 EmptyString)) with
      | Some r, Some g, Some b => Some (r, g, b)
      | _, _, _ => None
      end
  | _ => None
  end.

(* ------------------------------------------------------------------ *)
(** ** The page and its panels ([app/page.tsx], [components/FurniturePanel.tsx],
       [components/ChatBox.tsx]) *)

(** The object literal [{ ...item, visible: v }] on a piece of furniture. *)
Definition set_visible (v : bool) (item : Furniture.t) : Furniture.t :=
  {| Furniture.id := Furniture.id item;
     Furniture.name := Furniture.name item;
     Furniture.category := Furniture.category item;
     Furniture.position := Furniture.position item;
     Furniture.dimensions := Furniture.dimensions item;
     Furniture.color := Furniture.color item;
     Furniture.confidenceScore := Furniture.confidenceScore item;
     Furniture.visible := v;
     Furniture.description := Furniture.description item |}.

(** Toggles visibility of a specific furniture item: the updater that
    [handleToggleFurniture] hands to [setFurniture]. *)
Definition handleToggleFurniture (id : string)
  (prevFurniture : list Furniture.t) : list Furniture.t :=
  map (fun item =>
         if String.eqb (Furniture.id item) id
         then set_visible (negb (Furniture.visible item)) item
         else item)
    prevFurniture.

(** The click handler of the "Hide All" / "Show All" button.  [furniture] is
    the list the panel was rendered with; every [onToggleFurniture] call
    queues one updater, and the updaters run in order on the state. *)
Definition toggleAllClick (furniture : list Furniture.t) : list Furniture.t :=
  let allVisible := forallb Furniture.visible furniture in
  fold_left
    (fun state f =>
       if negb (Bool.eqb allVisible (Furniture.visible f))
       then handleToggleFurniture (Furniture.id f) state
       else state)
    furniture furniture.

(** The label of that button. *)
Definition toggleAllLabel (furniture : list Furniture.t) : string :=
  if forallb Furniture.visible furniture then "Hide All" else "Show All".

(** The statistics the panel shows: the room is 10 m by 8 m. *)
Definition panelStats (furniture : list Furniture.t) : RoomCoverage.t :=
  calculateRoomCoverage furniture 10 8.

(** The ways the page changes its [furniture] state: a retrieval with
    [maxResults = 10] ([handleRetrieveFurniture], [handleSendMessage]), a
    click on an item, a click on the toggle-all button. *)
Inductive furniture_step : list Furniture.t -> list Furniture.t -> Prop :=
| step_retrieve (state : list Furniture.t) (query : string) (now : Z) :
    furniture_step state
      (RAGRetrievalResult.furniture (retrieveFurniture query 10 now))
| step_toggle (state : list Furniture.t) (id : string) :
    furniture_step state (handleToggleFurniture id state)
| step_toggle_all (state : list Furniture.t) :
    furniture_step state (toggleAllClick state).

(** The states the page can be in, from [useState([])] on. *)
Inductive reachable : list Furniture.t -> Prop :=
| reachable_initial : reachable []
| reachable_step (state state' : list Furniture.t) :
    reachable state -> furniture_step state state' -> reachable state'.

(** [handleSubmit] of the chat box: the message handed to [onSendMessage],
    if any, and the input field afterwards. *)
Definition handleSubmit (input : string) (isLoading : bool)
  : option string * string :=
  if negb (String.eqb (trim input) "") && negb isLoading
  then (Some (trim input), ""%string)
  else (None, input).

(** The string a style is at run time. *)
Definition style_string (style : RoomStyle) : string :=
  match style with
  | modern => "modern" | japanese => "japanese" | minimalist => "minimalist"
  | scandinavian => "scandinavian" | industrial => "industrial"
  | traditional => "traditional"
  end.

(** [handleSendMessage] up to its [await]: the user's message is appended
    and loading starts.  [now_id] is what [Date.now()] reads and [now] what
    [new Date()] reads. *)
Definition handleSendMessage_start (message : string) (now_id now : Z)
  (page : Page.t) : Page.t :=
  let userMessage :=
    {| ChatMessage.id := Number_toString 10 now_id;
       ChatMessage.role := user;
       ChatMessage.content := message;
       ChatMessage.timestamp := now |} in
  {| Page.furniture := Page.furniture page;
     Page.isLoading := true;
     Page.chatMessages := Page.chatMessages page ++ [userMessage] |}.

(** [handleSendMessage] after its [await]: the retrieved furniture replaces
    the state, the assistant's answer is appended and loading stops.
    [now_retrieval], [now_id] and [now] are the three readings of the clock,
    in the order they are taken. *)
Definition handleSendMessage_finish (message : string)
  (now_retrieval now_id now : Z) (page : Page.t) : Page.t :=
  let style := detectRoomStyle message in
  let result := retrieveFurniture message 10 now_retrieval in
  let assistantMessage :=
    {| ChatMessage.id := Number_toString 10 (now_id + 1);
       ChatMessage.role := assistant;
       ChatMessage.content :=
         ("I've generated a " ++ style_string style ++
          " style living room with " ++
          Number_toString 10
            (Z.of_nat (List.length (RAGRetrievalResult.furniture result))) ++
          " furniture items. The furniture has been placed in the 3D viewer for you to explore!")%string;
       ChatMessage.timestamp := now |} in
  {| Page.furniture := RAGRetrievalResult.furniture result;
     Page.isLoading := false;
     Page.chatMessages := Page.chatMessages page ++ [assistantMessage] |}.


(** [s] is made of white space characters only. *)
Inductive white_space_only : string -> Prop :=
| white_space_none : white_space_only ""
| white_space_more (space rest : string) :
    In space white_space -> white_space_only rest ->
    white_space_only (space ++ rest).




(** The items of [l] with the visibility flags [flags], one flag per item. *)
Definition with_flags (flags : list bool) (l : list Furniture.t)
  : list Furniture.t :=
  map (fun vf => set_visible (fst vf) (snd vf)) (combine flags l).

(** All the lists of [n] flags. *)
Fixpoint all_flags (n : nat) : list (list bool) :=
  match n with
  | O => [[]]
  | S n' => map (cons true) (all_flags n') ++ map (cons false) (all_flags n')
  end.

(** The statistics are numbers within the given bounds. *)
Definition stats_within (maxFootprint maxPercentage : float)
  (stats : RoomCoverage.t) : bool :=
  ((0 <=? RoomCoverage.totalFootprint stats) &&
   (RoomCoverage.totalFootprint stats <=? maxFootprint) &&
   (0 <=? RoomCoverage.coveragePercentage stats) &&
   (RoomCoverage.coveragePercentage stats <=? maxPercentage))%float.

(** The furniture [retrieveFurniture] answers with for [maxResults = 10],
    by catalog. *)
Definition ranked (catalog : list CatalogRecord.t) : list Furniture.t :=
  sort by_confidence (map (with_visible true) (slice catalog 0 10)).

(* ------------------------------------------------------------------ *)
(** ** Facts about strings *)

Section StringFacts.

Local Open Scope string_scope.

Lemma append_assoc (a b c : string) : (a ++ b) ++ c = a ++ b ++ c.
Proof. induction a as [|x a IH]; simpl; [reflexivity | now rewrite IH]. Qed.

Lemma prefix_app (p s : string) :
  String.prefix p s = true <-> exists t, s = p ++ t.
Proof.
  revert s; induction p as [|c p IH]; intros s.
  - destruct s; simpl; (split; [intros _; eexists; reflexivity | reflexivity]).
  - destruct s as [|c' s]; simpl.
    + split; [discriminate | intros [t Ht]; discriminate].
    + destruct (ascii_dec c c') as [->|Hne].
      * rewrite IH. split; intros [t Ht]; exists t; congruence.
      * split; [discriminate | intros [t Ht]; congruence].
Qed.

Lemma includes_unfold (s k : string) :
  includes s k =
  if String.prefix k s then true
  else match s with
       | EmptyString => false
       | String _ rest => includes rest k
       end.
Proof. destruct s; reflexivity. Qed.

Lemma includes_Contains (s k : string) :
  includes s k = true <-> Contains s k.
Proof.
  split.
  - induction s as [|c s IH]; rewrite includes_unfold;
      destruct (String.prefix k _) eqn:Hp; intros H;
      try discriminate;
      try (apply prefix_app in Hp as [t Ht]; exists "", t; exact Ht).
    destruct (IH H) as (pre & post & ->).
    now exists (String c pre), post.
  - intros (pre & post & ->).
    induction pre as [|c pre IH]; rewrite includes_unfold.
    + replace (String.prefix k ("" ++ k ++ post)) with true; [reflexivity|].
      symmetry; apply prefix_app; now exists post.
    + destruct (String.prefix k _); [reflexivity | exact IH].
Qed.


Lemma join_loop_concat (sep R : string) (elements : list string) :
  join_loop sep R false elements =
  match elements with
  | [] => R
  | _ => R ++ sep ++ String.concat sep elements
  end.
Proof.
  revert R; induction elements as [|e rest IH]; intros R; [reflexivity|].
  simpl. rewrite IH. destruct rest as [|e' rest].
  - now rewrite !append_assoc.
  - now rewrite !append_assoc.
Qed.

Lemma join_concat (elements : list string) (sep : string) :
  join elements sep = String.concat sep elements.
Proof.
  unfold join. destruct elements as [|e rest]; [reflexivity|].
  simpl. rewrite join_loop_concat. now destruct rest.
Qed.

End StringFacts.

(* ------------------------------------------------------------------ *)
(** ** Facts about [slice] and [sort] *)

Lemma slice_from_0 {A : Type} (array : list A) (n : Z) :
  (0 <= n)%Z -> slice array 0 n = firstn (Z.to_nat n) array.
Proof.
  intros Hn. unfold slice.
  replace (0 <? 0)%Z with false by reflexivity.
  replace (n <? 0)%Z with false by (symmetry; apply Z.ltb_ge; exact Hn).
  rewrite (Z.min_l 0) by lia. simpl skipn. rewrite Z.sub_0_r.
  destruct (Z.le_ge_cases n (Z.of_nat (List.length array))) as [Hle|Hge].
  - now rewrite Z.min_l.
  - rewrite Z.min_r by exact Hge. rewrite Nat2Z.id.
    rewrite !firstn_all2; [reflexivity | lia | lia].
Qed.

Lemma In_firstn {A : Type} (n : nat) (l : list A) (a : A) :
  In a (firstn n l) -> In a l.
Proof.
  revert l; induction n as [|n IH]; intros [|b l]; simpl; try tauto.
  intros [H|H]; auto.
Qed.

Lemma In_skipn {A : Type} (n : nat) (l : list A) (a : A) :
  In a (skipn n l) -> In a l.
Proof. revert l; induction n as [|n IH]; intros [|b l]; simpl; auto. Qed.

Lemma slice_incl {A : Type} (array : list A) (start end_ : Z) (a : A) :
  In a (slice array start end_) -> In a array.
Proof. unfold slice. intros H. now apply In_firstn, In_skipn in H. Qed.

Section SortFacts.

Context {A : Type}.
Variable compareFn : A -> A -> float.

(** The items the comparator is used on. *)
Variable pool : A -> Prop.

(** The comparator is consistent on the pool: it never puts two items after
    each other, and "need not come after" is transitive. *)
Hypothesis sorts_after_asym : forall a b,
  pool a -> pool b ->
  sorts_after compareFn a b = true -> sorts_after compareFn b a = false.
Hypothesis not_after_trans : forall a b c,
  pool a -> pool b -> pool c ->
  sorts_after compareFn a b = false -> sorts_after compareFn b c = false ->
  sorts_after compareFn a c = false.

Let may_precede (a b : A) : Prop := sorts_after compareFn a b = false.

Lemma insert_perm (a : A) (l : list A) :
  Permutation (a :: l) (insert compareFn a l).
Proof.
  induction l as [|b l IH]; simpl; [reflexivity|].
  destruct (sorts_after compareFn a b); [|reflexivity].
  rewrite perm_swap. now constructor.
Qed.

Lemma sort_perm (l : list A) : Permutation l (sort compareFn l).
Proof.
  induction l as [|a l IH]; simpl; [constructor|].
  rewrite <- insert_perm. now constructor.
Qed.

Lemma sort_pool (l : list A) : Forall pool l -> Forall pool (sort compareFn l).
Proof.
  intros H. rewrite Forall_forall in *. intros a Ha. apply H.
  eapply Permutation_in; [symmetry; apply sort_perm | exact Ha].
Qed.

Lemma insert_sorted (a : A) (l : list A) :
  pool a -> Forall pool l ->
  StronglySorted may_precede l ->
  StronglySorted may_precede (insert compareFn a l).
Proof.
  intros Ha Hl Hs. induction Hs as [|b l Hs IH Hb]; simpl.
  - repeat constructor.
  - inversion Hl as [|? ? Pb Pl]; subst.
    destruct (sorts_after compareFn a b) eqn:Hab.
    + constructor; [now apply IH|].
      apply (Permutation_Forall (insert_perm a l)).
      constructor; [|exact Hb].
      now apply sorts_after_asym.
    + constructor; [now constructor|].
      constructor; [exact Hab|].
      rewrite Forall_forall in *. intros c Hc.
      apply (not_after_trans a b c); auto. now apply Hb.
Qed.

Lemma sort_sorted (l : list A) :
  Forall pool l -> StronglySorted may_precede (sort compareFn l).
Proof.
  induction 1 as [|a l Ha Hl IH]; simpl; [constructor|].
  apply insert_sorted; auto using sort_pool.
Qed.

Lemma tied_class (x a b : A) :
  pool x -> pool a -> pool b ->
  tied compareFn x a = true -> tied compareFn x b = true ->
  sorts_after compareFn a b = false.
Proof.
  unfold tied. intros Px Pa Pb Ha Hb.
  apply andb_true_iff in Ha as [_ Ha], Hb as [Hb _].
  apply negb_true_iff in Ha, Hb.
  now apply (not_after_trans a x b).
Qed.

Lemma insert_stable (x a : A) (l : list A) :
  pool x -> pool a -> Forall pool l ->
  filter (tied compareFn x) (insert compareFn a l) =
  filter (tied compareFn x) (a :: l).
Proof.
  intros Px Pa Hl. induction Hl as [|b l Pb Hl IH]; [reflexivity|].
  simpl insert. destruct (sorts_after compareFn a b) eqn:Hab; [|reflexivity].
  simpl filter in *. rewrite IH.
  destruct (tied compareFn x a) eqn:Ta, (tied compareFn x b) eqn:Tb;
    try reflexivity.
  rewrite (tied_class x a b) in Hab by assumption. discriminate.
Qed.

Lemma sort_stable (x : A) (l : list A) :
  pool x -> Forall pool l ->
  filter (tied compareFn x) (sort compareFn l) = filter (tied compareFn x) l.
Proof.
  intros Px Hl. induction Hl as [|a l Pa Hl IH]; [reflexivity|].
  simpl sort. rewrite insert_stable by auto using sort_pool.
  simpl. now rewrite IH.
Qed.

End SortFacts.

(* ------------------------------------------------------------------ *)
(** ** The comparator on the catalogs *)

Lemma catalogs_consistent : consistent_on all_catalog_items = true.
Proof. vm_compute. reflexivity. Qed.

Lemma consistent_pair_in (a b : Furniture.t) :
  in_catalogs a -> in_catalogs b ->
  consistent_pair all_catalog_items a b = true.
Proof.
  intros Ha Hb. pose proof catalogs_consistent as H.
  unfold consistent_on in H. rewrite forallb_forall in H.
  specialize (H a Ha). rewrite forallb_forall in H. exact (H b Hb).
Qed.

Lemma by_confidence_asym (a b : Furniture.t) :
  in_catalogs a -> in_catalogs b ->
  sorts_after by_confidence a b = true ->
  sorts_after by_confidence b a = false.
Proof.
  intros Ha Hb Hab. pose proof (consistent_pair_in a b Ha Hb) as H.
  unfold consistent_pair in H. rewrite !andb_true_iff in H.
  destruct H as [[[H _] _] _]. rewrite Hab in H. simpl in H.
  now apply negb_true_iff.
Qed.

Lemma by_confidence_trans (a b c : Furniture.t) :
  in_catalogs a -> in_catalogs b -> in_catalogs c ->
  sorts_after by_confidence a b = false ->
  sorts_after by_confidence b c = false ->
  sorts_after by_confidence a c = false.
Proof.
  intros Ha Hb Hc Hab Hbc. pose proof (consistent_pair_in a b Ha Hb) as H.
  unfold consistent_pair in H. rewrite !andb_true_iff in H.
  destruct H as [_ H]. rewrite forallb_forall in H. specialize (H c Hc).
  rewrite Hab, Hbc in H. simpl in H. now apply negb_true_iff.
Qed.

Lemma by_confidence_ge (a b : Furniture.t) :
  in_catalogs a -> in_catalogs b ->
  sorts_after by_confidence a b = false -> confidence_ge a b.
Proof.
  intros Ha Hb Hab. pose proof (consistent_pair_in a b Ha Hb) as H.
  unfold consistent_pair in H. rewrite !andb_true_iff in H.
  destruct H as [[[_ H] _] _]. apply Bool.eqb_prop in H.
  rewrite Hab in H. unfold confidence_ge. now rewrite <- H.
Qed.

Lemma by_confidence_tied (a b : Furniture.t) :
  in_catalogs a -> in_catalogs b ->
  tied by_confidence a b = same_confidence a b.
Proof.
  intros Ha Hb. pose proof (consistent_pair_in a b Ha Hb) as H.
  unfold consistent_pair in H. rewrite !andb_true_iff in H.
  destruct H as [[_ H] _]. now apply Bool.eqb_prop in H.
Qed.

Lemma StronglySorted_impl_on {A : Type} (P : A -> Prop) (R R' : A -> A -> Prop)
  (l : list A) :
  (forall a b, P a -> P b -> R a b -> R' a b) ->
  Forall P l -> StronglySorted R l -> StronglySorted R' l.
Proof.
  intros HR HP Hs. induction Hs as [|a l Hs IH Ha]; constructor.
  - apply IH. now inversion HP.
  - inversion HP as [|? ? Pa Pl]; subst.
    rewrite Forall_forall in *. intros b Hb. apply HR; auto.
Qed.

(** On items of the catalogs, [sort by_confidence] is the stable sort by
    descending confidence score. *)
Lemma sort_by_confidence_stable (l : list Furniture.t) :
  Forall in_catalogs l ->
  stably_sorted_descending l (sort by_confidence l).
Proof.
  intros Hl.
  assert (Hs : Forall in_catalogs (sort by_confidence l)).
  { rewrite Forall_forall in *. intros a Ha. apply Hl.
    eapply Permutation_in; [symmetry; apply sort_perm | exact Ha]. }
  split; [apply sort_perm | split].
  - apply (StronglySorted_impl_on in_catalogs
             (fun a b => sorts_after by_confidence a b = false));
      [exact by_confidence_ge | exact Hs |].
    apply (sort_sorted by_confidence in_catalogs);
      [exact by_confidence_asym | exact by_confidence_trans | exact Hl].
  - intros a Ha.
    assert (Pa : in_catalogs a) by (rewrite Forall_forall in Hl; auto).
    rewrite <- (filter_ext_in (tied by_confidence a) (same_confidence a)
                  (sort by_confidence l)).
    + rewrite <- (filter_ext_in (tied by_confidence a) (same_confidence a) l).
      * apply (sort_stable by_confidence in_catalogs);
          [exact by_confidence_trans | exact Pa | exact Hl].
      * intros b Hb. apply by_confidence_tied; auto.
        rewrite Forall_forall in Hl; auto.
    + intros b Hb. apply by_confidence_tied; auto.
      rewrite Forall_forall in Hs; auto.
Qed.

(** *** Uniqueness of the stable sort *)

Section StableSortUnique.

Local Open Scope float_scope.

Lemma SFcompare_antisym (u v : spec_float) (c : comparison) :
  SFcompare u v = Some c -> SFcompare v u = Some (CompOpp c).
Proof.
  destruct u as [s1|s1| |s1 m1 e1], v as [s2|s2| |s2 m2 e2]; simpl;
    try discriminate;
    try (intros [= <-]; destruct s1; try destruct s2; reflexivity);
    try (intros [= <-]; destruct s2; reflexivity).
  intros [= <-]. f_equal.
  rewrite (Z.compare_antisym e1 e2).
  destruct s1, s2; try reflexivity;
    destruct (e1 ?= e2)%Z; simpl; try reflexivity;
    rewrite (Pos.compare_cont_antisym m1 m2 Eq); reflexivity.
Qed.

Lemma SFcompare_refl (u v : spec_float) (c : comparison) :
  SFcompare v u = Some c -> SFcompare u u = Some Eq.
Proof.
  destruct u as [s1|s1| |s1 m1 e1]; simpl.
  - reflexivity.
  - now destruct s1.
  - now destruct v.
  - intros _. rewrite Z.compare_refl, Pos.compare_cont_refl. now destruct s1.
Qed.

Lemma leb_antisym (u v : float) :
  (u <=? v) = true -> (v <=? u) = true -> (u =? v) = true.
Proof.
  rewrite !FloatAxioms.leb_spec, FloatAxioms.eqb_spec. unfold SFleb, SFeqb.
  destruct (SFcompare (Prim2SF u) (Prim2SF v)) as [c|] eqn:E; [|discriminate].
  rewrite (SFcompare_antisym _ _ _ E). now destruct c.
Qed.

Lemma leb_eqb_refl (u v : float) : (v <=? u) = true -> (u =? u) = true.
Proof.
  rewrite FloatAxioms.leb_spec, FloatAxioms.eqb_spec. unfold SFleb, SFeqb.
  destruct (SFcompare (Prim2SF v) (Prim2SF u)) as [c|] eqn:E; [|discriminate].
  now rewrite (SFcompare_refl _ _ _ E).
Qed.

Lemma sorted_classes_unique (o1 o2 : list Furniture.t) :
  Permutation o1 o2 ->
  StronglySorted confidence_ge o1 -> StronglySorted confidence_ge o2 ->
  (forall a, In a o1 ->
     filter (same_confidence a) o1 = filter (same_confidence a) o2) ->
  o1 = o2.
Proof.
  revert o2. induction o1 as [|h1 t1 IH]; intros o2 Hperm S1 S2 Hclass.
  - now apply Permutation_nil in Hperm.
  - destruct o2 as [|h2 t2];
      [now apply Permutation_sym, Permutation_nil in Hperm|].
    apply StronglySorted_inv in S1 as [S1 G1], S2 as [S2 G2].
    rewrite Forall_forall in G1, G2.
    assert (Hh : h1 = h2).
    { destruct t1 as [|x t1'].
      - apply Permutation_length_1_inv in Hperm. congruence.
      - assert (R1 : same_confidence h1 h1 = true).
        { apply (leb_eqb_refl _ (Furniture.confidenceScore x)).
          apply G1. now left. }
        assert (In2 : In h2 (h1 :: x :: t1'))
          by (apply (Permutation_in _ (Permutation_sym Hperm)); now left).
        assert (In1 : In h1 (h2 :: t2))
          by (apply (Permutation_in _ Hperm); now left).
        destruct In2 as [E|In2]; [exact E|].
        destruct In1 as [E|In1]; [now symmetry|].
        assert (R2 : same_confidence h1 h2 = true).
        { apply leb_antisym; [apply G1, In2 | apply G2, In1]. }
        specialize (Hclass h1 (or_introl eq_refl)).
        simpl in Hclass. rewrite R1, R2 in Hclass. congruence. }
    subst h2. f_equal. apply IH; auto.
    + now apply Permutation_cons_inv in Hperm.
    + intros a Ha. specialize (Hclass a (or_intror Ha)).
      simpl in Hclass. destruct (same_confidence a h1); congruence.
Qed.

(** The stable sort by descending confidence score of a list is unique. *)
Lemma stably_sorted_descending_unique (input o1 o2 : list Furniture.t) :
  stably_sorted_descending input o1 ->
  stably_sorted_descending input o2 ->
  o1 = o2.
Proof.
  intros (P1 & S1 & C1) (P2 & S2 & C2).
  apply sorted_classes_unique; auto.
  - now rewrite <- P1.
  - intros a Ha. apply (Permutation_in _ (Permutation_sym P1)) in Ha.
    now rewrite C1, C2.
Qed.

End StableSortUnique.

(* ------------------------------------------------------------------ *)
(** ** Style detection and catalog selection *)

Section StyleDetection.

Local Open Scope string_scope.

Lemma includes_any (s : string) (keywords : list string) :
  existsb (includes s) keywords = true <-> ContainsAny s keywords.
Proof.
  rewrite existsb_exists. unfold ContainsAny.
  split; intros (k & Hk & H); exists k; split; auto;
    now apply includes_Contains.
Qed.

Lemma includes_none (s : string) (keywords : list string) :
  existsb (includes s) keywords = false <-> ~ ContainsAny s keywords.
Proof.
  rewrite <- includes_any.
  destruct (existsb (includes s) keywords); intuition congruence.
Qed.

(** The chain of tests of [detectRoomStyle], one keyword group per test. *)
Lemma detectRoomStyle_groups (query : string) :
  detectRoomStyle query =
  let lowerQuery := toLowerCase query in
  if existsb (includes lowerQuery) japanese_keywords then japanese
  else if existsb (includes lowerQuery) minimalist_keywords then minimalist
  else if existsb (includes lowerQuery) scandinavian_keywords then scandinavian
  else if existsb (includes lowerQuery) industrial_keywords then industrial
  else if existsb (includes lowerQuery) traditional_keywords then traditional
  else modern.
Proof.
  unfold detectRoomStyle. cbv zeta. simpl existsb.
  rewrite !orb_false_r, !orb_assoc. reflexivity.
Qed.

(** C2: [detectRoomStyle] is total and answers by the first keyword group,
    in the order japanese, minimalist, scandinavian, industrial,
    traditional, that the lower-cased query contains a keyword of; it answers
    "modern" exactly when the lower-cased query contains no keyword at all,
    as the empty query does, and "japanese" whenever a japanese keyword is
    present, also next to a minimalist one.  The lower-cased query is what
    [String.prototype.toLowerCase] makes of the query, whatever characters
    it has; capital letters in a keyword are found, as in "Zen and MINIMAL"
    and "NORDIC light". *)
Theorem detectRoomStyle_spec (query : string) :
  let lowerQuery := toLowerCase query in
  let J := ContainsAny lowerQuery japanese_keywords in
  let M := ContainsAny lowerQuery minimalist_keywords in
  let S := ContainsAny lowerQuery scandinavian_keywords in
  let I := ContainsAny lowerQuery industrial_keywords in
  let T := ContainsAny lowerQuery traditional_keywords in
  (detectRoomStyle query = japanese <-> J) /\
  (detectRoomStyle query = minimalist <-> ~ J /\ M) /\
  (detectRoomStyle query = scandinavian <-> ~ J /\ ~ M /\ S) /\
  (detectRoomStyle query = industrial <-> ~ J /\ ~ M /\ ~ S /\ I) /\
  (detectRoomStyle query = traditional <-> ~ J /\ ~ M /\ ~ S /\ ~ I /\ T) /\
  (detectRoomStyle query = modern <-> ~ J /\ ~ M /\ ~ S /\ ~ I /\ ~ T) /\
  (J /\ M -> detectRoomStyle query = japanese) /\
  detectRoomStyle "" = modern /\
  detectRoomStyle "Zen and MINIMAL" = japanese /\
  detectRoomStyle "NORDIC light" = scandinavian.
Proof.
  intros lowerQuery J M S I T. rewrite (detectRoomStyle_groups query).
  fold lowerQuery. cbv zeta.
  destruct (existsb (includes lowerQuery) japanese_keywords) eqn:EJ;
  [apply includes_any in EJ | apply includes_none in EJ];
  (destruct (existsb (includes lowerQuery) minimalist_keywords) eqn:EM;
   [apply includes_any in EM | apply includes_none in EM]);
  (destruct (existsb (includes lowerQuery) scandinavian_keywords) eqn:ES;
   [apply includes_any in ES | apply includes_none in ES]);
  (destruct (existsb (includes lowerQuery) industrial_keywords) eqn:EI;
   [apply includes_any in EI | apply includes_none in EI]);
  (destruct (existsb (includes lowerQuery) traditional_keywords) eqn:ET;
   [apply includes_any in ET | apply includes_none in ET]);
  fold J in EJ; fold M in EM; fold S in ES; fold I in EI; fold T in ET;
  repeat split; try tauto; try discriminate; try reflexivity;
  intros; exfalso; tauto.
Qed.

(** C4: the catalog selector answers with the Japanese catalog for
    "japanese" and with the default catalog for each of the other five
    styles. *)
Theorem getFurnitureByStyle_spec (style : RoomStyle) :
  (style = japanese ->
   getFurnitureByStyle style = JAPANESE_FURNITURE_DATABASE) /\
  (style <> japanese ->
   getFurnitureByStyle style = MOCK_FURNITURE_DATABASE) /\
  getFurnitureByStyle modern = MOCK_FURNITURE_DATABASE /\
  getFurnitureByStyle minimalist = MOCK_FURNITURE_DATABASE /\
  getFurnitureByStyle scandinavian = MOCK_FURNITURE_DATABASE /\
  getFurnitureByStyle industrial = MOCK_FURNITURE_DATABASE /\
  getFurnitureByStyle traditional = MOCK_FURNITURE_DATABASE.
Proof.
  repeat split; try reflexivity.
  - now intros ->.
  - destruct style; intros H; try reflexivity. congruence.
Qed.

Lemma getFurnitureByStyle_spec_witness :
  getFurnitureByStyle japanese = JAPANESE_FURNITURE_DATABASE /\
  (scandinavian <> japanese /\
   getFurnitureByStyle scandinavian = MOCK_FURNITURE_DATABASE).
Proof.
  assert (D : scandinavian <> japanese) by discriminate.
  split; [|split; [exact D|]].
  - destruct (getFurnitureByStyle_spec japanese) as (H & _). exact (H eq_refl).
  - destruct (getFurnitureByStyle_spec scandinavian) as (_ & H & _).
    exact (H D).
Defined.

End StyleDetection.

(* ------------------------------------------------------------------ *)
(** ** Retrieval *)

Lemma selected_in_catalogs (style : RoomStyle) (l : list CatalogRecord.t) :
  incl l (getFurnitureByStyle style) ->
  Forall in_catalogs (map (with_visible true) l).
Proof.
  intros Hl. apply Forall_forall. intros f Hf.
  apply in_map_iff in Hf as (r & <- & Hr). apply Hl in Hr.
  unfold in_catalogs, all_catalog_items. apply in_map, in_or_app.
  destruct style; simpl in Hr; auto.
Qed.

Lemma with_visible_all (l : list CatalogRecord.t) :
  Forall (fun f => Furniture.visible f = true) (map (with_visible true) l).
Proof.
  apply Forall_forall. intros f Hf.
  now apply in_map_iff in Hf as (r & <- & _).
Qed.

Lemma with_visible_made_visible (l : list CatalogRecord.t) :
  Forall2 made_visible l (map (with_visible true) l).
Proof.
  induction l as [|r l IH]; constructor; [|exact IH].
  repeat split.
Qed.

Lemma made_visible_inv (r : CatalogRecord.t) (f : Furniture.t) :
  made_visible r f <-> f = with_visible true r.
Proof.
  split.
  - destruct f. unfold made_visible. simpl.
    intros (-> & -> & -> & -> & -> & -> & -> & -> & ->). reflexivity.
  - intros ->. repeat split.
Qed.

Lemma made_visible_all (l : list CatalogRecord.t) (l' : list Furniture.t) :
  Forall2 made_visible l l' <-> l' = map (with_visible true) l.
Proof.
  split.
  - induction 1 as [|r f l l' H _ IH]; [reflexivity|].
    apply made_visible_inv in H. simpl. now subst.
  - intros ->. apply with_visible_made_visible.
Qed.

(** C1: for a positive [maxResults], the furniture of [retrieveFurniture] is
    made of the first [maxResults] records of the catalog selected for the
    query: one item per record, with every field of the record and visible
    ([taken]), and these items stably sorted by descending confidence
    score; so it has [min maxResults (catalog size)] items, all visible,
    and exactly [maxResults] of them when the catalog has that many. *)
Theorem retrieveFurniture_spec (query : string) (maxResults now : Z) :
  (0 < maxResults)%Z ->
  let catalog := getFurnitureByStyle (detectRoomStyle query) in
  let result := RAGRetrievalResult.furniture
                  (retrieveFurniture query maxResults now) in
  exists taken,
    Forall2 made_visible (firstn (Z.to_nat maxResults) catalog) taken /\
    stably_sorted_descending taken result /\
    (forall other, stably_sorted_descending taken other -> other = result) /\
    List.length result = Nat.min (Z.to_nat maxResults) (List.length catalog) /\
    Forall (fun f => Furniture.visible f = true) result /\
    ((maxResults <= Z.of_nat (List.length catalog))%Z ->
     Z.of_nat (List.length result) = maxResults).
Proof.
  intros Hpos catalog result.
  set (taken := map (with_visible true) (firstn (Z.to_nat maxResults) catalog)).
  exists taken. split; [apply with_visible_made_visible|].
  assert (Hres : result = sort by_confidence taken).
  { unfold result, retrieveFurniture, taken, catalog. simpl.
    now rewrite slice_from_0 by lia. }
  assert (Hsorted : stably_sorted_descending taken result).
  { rewrite Hres. apply sort_by_confidence_stable.
    apply (selected_in_catalogs (detectRoomStyle query)).
    intros r Hr. exact (In_firstn _ _ _ Hr). }
  assert (Hlen : List.length result =
                 Nat.min (Z.to_nat maxResults) (List.length catalog)).
  { destruct Hsorted as [Hperm _].
    rewrite <- (Permutation_length Hperm). unfold taken.
    now rewrite length_map, length_firstn. }
  split; [exact Hsorted | split; [|split; [exact Hlen | split]]].
  - intros other Hother.
    exact (stably_sorted_descending_unique taken other result Hother Hsorted).
  - destruct Hsorted as [Hperm _].
    apply (Permutation_Forall Hperm). apply with_visible_all.
  - intros Hle. rewrite Hlen. lia.
Qed.

(** C7: the query "Generate a Japanese style living room" with
    [maxResults = 10] is detected as "japanese"; the Japanese catalog has 10
    records and all 10 are returned; the first one is the "Chabudai Low
    Table", whose confidence score 0.96 no other item exceeds. *)
Theorem retrieveFurniture_japanese_living_room (now : Z) :
  let query := "Generate a Japanese style living room"%string in
  let result := RAGRetrievalResult.furniture (retrieveFurniture query 10 now) in
  detectRoomStyle query = japanese /\
  List.length JAPANESE_FURNITURE_DATABASE = 10 /\
  List.length result = 10 /\
  (exists first rest,
     result = first :: rest /\
     Furniture.name first = "Chabudai Low Table"%string /\
     Furniture.id first = "jp-table-001"%string /\
     Furniture.confidenceScore first = 0.96%float) /\
  Forall (fun f => (Furniture.confidenceScore f <=? 0.96)%float = true) result.
Proof.
  cbv zeta. repeat split.
  - eexists _, _. repeat split; vm_compute; reflexivity.
  - vm_compute. repeat constructor.
Qed.

Lemma array_includes_In (categories : list string) (v : string) :
  array_includes categories v = true <-> In v categories.
Proof.
  unfold array_includes. rewrite existsb_exists. split.
  - intros (c & Hc & E). apply String.eqb_eq in E. now subst.
  - intros H. exists v. split; [exact H | apply String.eqb_refl].
Qed.

Lemma category_filter_matching (categories : list string) :
  filter
    (fun item =>
       array_includes categories
         (category_string (CatalogRecord.category item)))
    MOCK_FURNITURE_DATABASE
  = matching_records categories.
Proof.
  unfold matching_records. apply filter_ext. intros r.
  destruct (in_dec string_dec _ categories) as [Hin|Hout].
  - now apply array_includes_In.
  - destruct (array_includes categories _) eqn:E; [|reflexivity].
    now apply array_includes_In in E.
Qed.

Lemma matching_records_In (categories : list string) (r : CatalogRecord.t) :
  In r (matching_records categories) <->
  In r MOCK_FURNITURE_DATABASE /\
  In (category_string (CatalogRecord.category r)) categories.
Proof.
  unfold matching_records. rewrite filter_In.
  destruct (in_dec string_dec _ categories); intuition congruence.
Qed.

Lemma retrieveFurnitureByCategory_sort (categories : list string) (now : Z) :
  RAGRetrievalResult.furniture (retrieveFurnitureByCategory categories now) =
  sort by_confidence (map (with_visible true) (matching_records categories)).
Proof.
  unfold retrieveFurnitureByCategory. cbn [RAGRetrievalResult.furniture].
  now rewrite category_filter_matching.
Qed.

(** C5: [retrieveFurnitureByCategory] takes no query and consults no style;
    its furniture is made of the records of the default catalog whose
    category is, as a string, one of the given names: one item per record,
    with every field of the record and visible ([selected]), and these
    items stably sorted by descending confidence score; every matching
    record is in the result, nothing else is, and every item is visible. *)
Theorem retrieveFurnitureByCategory_spec (categories : list string) (now : Z) :
  let result := RAGRetrievalResult.furniture
                  (retrieveFurnitureByCategory categories now) in
  exists selected,
    Forall2 made_visible (matching_records categories) selected /\
    stably_sorted_descending selected result /\
    (forall other, stably_sorted_descending selected other -> other = result) /\
    (forall f, In f result <->
       exists r, In r MOCK_FURNITURE_DATABASE /\
                 In (category_string (CatalogRecord.category r)) categories /\
                 made_visible r f) /\
    Forall (fun f => Furniture.visible f = true) result /\
    List.length result = List.length (matching_records categories).
Proof.
  cbv zeta. rewrite retrieveFurnitureByCategory_sort.
  exists (map (with_visible true) (matching_records categories)).
  split; [apply with_visible_made_visible|].
  assert (Hs : stably_sorted_descending
                 (map (with_visible true) (matching_records categories))
                 (sort by_confidence
                    (map (with_visible true) (matching_records categories)))).
  { apply sort_by_confidence_stable.
    apply (selected_in_catalogs modern).
    intros r Hr. now apply matching_records_In in Hr. }
  split; [exact Hs|]. split.
  { intros other Hother.
    exact (stably_sorted_descending_unique _ other _ Hother Hs). }
  destruct Hs as [Hperm _]. split; [|split].
  - intros f. split.
    + intros Hf. apply (Permutation_in _ (Permutation_sym Hperm)) in Hf.
      apply in_map_iff in Hf as (r & <- & Hr).
      apply matching_records_In in Hr as [Hr Hc].
      exists r. split; [exact Hr | split; [exact Hc|]].
      now apply made_visible_inv.
    + intros (r & Hr & Hc & Hf). apply made_visible_inv in Hf. subst f.
      apply (Permutation_in _ Hperm).
      apply in_map. now apply matching_records_In.
  - apply (Permutation_Forall Hperm), with_visible_all.
  - now rewrite <- (Permutation_length Hperm), length_map.
Qed.

Lemma retrieveFurnitureByCategory_spec_witness :
  exists f,
    In f (RAGRetrievalResult.furniture
            (retrieveFurnitureByCategory ["chair"; "Sofa"]%string 0)) /\
    Furniture.id f = "chair-001"%string /\
    Furniture.visible f = true.
Proof.
  destruct (retrieveFurnitureByCategory_spec ["chair"; "Sofa"]%string 0)
    as (_ & _ & _ & _ & H & _).
  exists (with_visible true
            (item "chair-001" "Dining Chair" chair
               (2.5, 0.45, -1.5)%float (0.5, 0.9, 0.5)%float
               (80, 80, 80)%float 0.90%float
               "Modern dining chair with ergonomic design")).
  split; [|split; reflexivity].
  apply H. eexists. split; [|split].
  - do 3 right. left. reflexivity.
  - left. reflexivity.
  - repeat split.
Defined.

(** C6: when no given name is the category of a record of the default
    catalog, as for unrecognized names, the furniture of
    [retrieveFurnitureByCategory] is empty; the call still returns. *)
Theorem retrieveFurnitureByCategory_no_match
  (categories : list string) (now : Z) :
  (forall c r, In c categories -> In r MOCK_FURNITURE_DATABASE ->
               category_string (CatalogRecord.category r) <> c) ->
  RAGRetrievalResult.furniture (retrieveFurnitureByCategory categories now)
  = [].
Proof.
  intros Hnone. rewrite retrieveFurnitureByCategory_sort.
  replace (matching_records categories) with (@nil CatalogRecord.t);
    [reflexivity|].
  destruct (matching_records categories) as [|r l] eqn:E; [reflexivity|].
  assert (Hr : In r (matching_records categories)) by (rewrite E; now left).
  apply matching_records_In in Hr as [Hr Hc].
  now destruct (Hnone _ r Hc Hr).
Qed.

Lemma retrieveFurnitureByCategory_no_match_witness :
  RAGRetrievalResult.furniture
    (retrieveFurnitureByCategory ["Sofa"; "couch"; "bed"]%string 0) = [].
Proof.
  apply (retrieveFurnitureByCategory_no_match ["Sofa"; "couch"; "bed"]%string 0).
  intros c r Hc Hr E. subst c.
  revert Hc. simpl in Hr.
  repeat (destruct Hr as [<-|Hr]; [vm_compute; intuition discriminate|]).
  destruct Hr.
Defined.

(** C9: the query of the result of [retrieveFurnitureByCategory] is the
    text "Categories: " followed by the given names separated by ", ". *)
Theorem retrieveFurnitureByCategory_query (categories : list string) (now : Z) :
  RAGRetrievalResult.query (retrieveFurnitureByCategory categories now) =
    Some ("Categories: " ++ String.concat ", " categories)%string /\
  RAGRetrievalResult.query
    (retrieveFurnitureByCategory ["sofa"; "table"]%string now) =
    Some "Categories: sofa, table"%string.
Proof.
  split; [|reflexivity].
  unfold retrieveFurnitureByCategory. cbn [RAGRetrievalResult.query].
  now rewrite join_concat.
Qed.

(* ------------------------------------------------------------------ *)
(** ** Facts about numbers *)

Section NumberFacts.

Local Open Scope float_scope.

Lemma not_finite_sf (v : float) :
  not_finite v <-> sf_not_finite (Prim2SF v) = true.
Proof.
  split.
  - intros [->|[->| ->]]; reflexivity.
  - intros H. rewrite <- (SF2Prim_Prim2SF v).
    destruct (Prim2SF v) as [s|[|]| |s m e]; try discriminate;
      unfold not_finite; auto.
Qed.

Lemma Math_round_not_finite (v : float) :
  sf_not_finite (Prim2SF v) = true -> Math_round v = v.
Proof.
  unfold Math_round. now destruct (Prim2SF v).
Qed.

Lemma eqb_zero_sf (v : float) :
  (v =? 0) = true <-> exists s, Prim2SF v = S754_zero s.
Proof.
  rewrite FloatAxioms.eqb_spec. split.
  - destruct (Prim2SF v) as [s|[|]| |[|] m e]; try discriminate.
    intros _. now exists s.
  - intros [s ->]. reflexivity.
Qed.

Lemma ltb_zero_sf (v : float) :
  (0 <? v) = true <->
  Prim2SF v = S754_infinity false \/
  exists m e, Prim2SF v = S754_finite false m e.
Proof.
  rewrite FloatAxioms.ltb_spec. split.
  - destruct (Prim2SF v) as [s|[|]| |[|] m e]; try discriminate; eauto.
  - intros [->|(m & e & ->)]; reflexivity.
Qed.

Lemma div_by_zero_not_finite (a z : float) :
  (z =? 0) = true -> sf_not_finite (Prim2SF (a / z)) = true.
Proof.
  intros Hz. apply eqb_zero_sf in Hz as [s Hz].
  rewrite FloatAxioms.div_spec, Hz. now destruct (Prim2SF a).
Qed.

Lemma div_by_nan (a z : float) :
  Prim2SF z = S754_nan -> sf_not_finite (Prim2SF (a / z)) = true.
Proof.
  intros Hz. rewrite FloatAxioms.div_spec, Hz. now destruct (Prim2SF a).
Qed.

Lemma zero_div_positive (a : float) : (0 <? a) = true -> 0 / a = 0.
Proof.
  intros Ha. apply Prim2SF_inj. rewrite FloatAxioms.div_spec.
  apply ltb_zero_sf in Ha as [->|(m & e & ->)]; reflexivity.
Qed.

(** Scaling by a finite nonzero constant keeps an infinity or NaN. *)
Lemma mul_not_finite (v c : float) (s : bool) (m : positive) (e : Z) :
  Prim2SF c = S754_finite s m e ->
  sf_not_finite (Prim2SF v) = true ->
  sf_not_finite (Prim2SF (v * c)) = true.
Proof.
  intros Hc Hv. rewrite FloatAxioms.mul_spec, Hc.
  now destruct (Prim2SF v).
Qed.

Lemma div_not_finite (v c : float) (s : bool) (m : positive) (e : Z) :
  Prim2SF c = S754_finite s m e ->
  sf_not_finite (Prim2SF v) = true ->
  sf_not_finite (Prim2SF (v / c)) = true.
Proof.
  intros Hc Hv. rewrite FloatAxioms.div_spec, Hc.
  now destruct (Prim2SF v).
Qed.

(** A product with a zero factor is a zero or NaN. *)
Lemma mul_zero_factor (a b : float) :
  (a =? 0) = true \/ (b =? 0) = true ->
  (a * b =? 0) = true \/ Prim2SF (a * b) = S754_nan.
Proof.
  rewrite (eqb_zero_sf (a * b)), FloatAxioms.mul_spec.
  intros [H|H]; apply eqb_zero_sf in H as [s ->].
  - destruct (Prim2SF b); simpl; eauto.
  - destruct (Prim2SF a); simpl; eauto.
Qed.

Lemma positive_not_zero (v : float) : (0 <? v) = true -> (v =? 0) = false.
Proof.
  intros H. destruct (v =? 0) eqn:E; [|reflexivity].
  apply eqb_zero_sf in E as [s E].
  apply ltb_zero_sf in H as [H|(m & e & H)]; congruence.
Qed.

End NumberFacts.

(* ------------------------------------------------------------------ *)
(** ** [Math.round] against its definition *)

Section RoundingFacts.

Local Open Scope Z_scope.

Lemma digits2_pos_bounds (p : positive) :
  (2 ^ (Z.pos (digits2_pos p) - 1) <= Z.pos p < 2 ^ Z.pos (digits2_pos p))%Z.
Proof.
  induction p as [p IH|p IH|]; simpl digits2_pos.
  - rewrite Pos2Z.inj_succ.
    replace (Z.succ (Z.pos (digits2_pos p)) - 1)%Z
      with (Z.succ (Z.pos (digits2_pos p) - 1))%Z by lia.
    rewrite !Z.pow_succ_r by lia. lia.
  - rewrite Pos2Z.inj_succ.
    replace (Z.succ (Z.pos (digits2_pos p)) - 1)%Z
      with (Z.succ (Z.pos (digits2_pos p) - 1))%Z by lia.
    rewrite !Z.pow_succ_r by lia. lia.
  - simpl. lia.
Qed.

Lemma digits2_pos_unique (p : positive) (j : Z) :
  (2 ^ (j - 1) <= Z.pos p < 2 ^ j)%Z -> Z.pos (digits2_pos p) = j.
Proof.
  intros [Hlo Hhi]. pose proof (digits2_pos_bounds p) as [Dlo Dhi].
  assert (Hj : (0 < j)%Z).
  { destruct (Z.ltb_spec 0 j) as [|Hle]; [assumption|].
    assert (2 ^ j <= 1)%Z; [|lia].
    destruct (Z.eq_dec j 0) as [->|]; [simpl; lia|].
    rewrite Z.pow_neg_r by lia. lia. }
  assert (H1 : (Z.pos (digits2_pos p) - 1 < j)%Z).
  { apply (Z.pow_lt_mono_r_iff 2); lia. }
  assert (H2 : (j - 1 < Z.pos (digits2_pos p))%Z).
  { apply (Z.pow_lt_mono_r_iff 2); lia. }
  lia.
Qed.


Lemma finite_canonical (x : float) (s : bool) (m : positive) (e : Z) :
  Prim2SF x = S754_finite s m e ->
  Z.max (Z.pos (digits2_pos m) + e - 53) (-1074) = e /\ e <= 971.
Proof.
  intros E. pose proof (FloatAxioms.Prim2SF_valid x) as V. rewrite E in V.
  unfold SpecFloat.valid_binary, bounded, canonical_mantissa, fexp in V.
  apply andb_true_iff in V as [V1 V2].
  apply Z.eqb_eq in V1. apply Z.leb_le in V2.
  unfold SpecFloat.emin, prec, emax in *. split; [exact V1 | exact V2].
Qed.

Lemma finite_mantissa_bound (x : float) (s : bool) (m : positive) (e : Z) :
  Prim2SF x = S754_finite s m e -> Z.pos m < 2 ^ 53.
Proof.
  intros E. destruct (finite_canonical x s m e E) as [C _].
  pose proof (digits2_pos_bounds m) as [_ Hhi].
  assert (Z.pos (digits2_pos m) <= 53) by lia.
  eapply Z.lt_le_trans; [exact Hhi|].
  apply Z.pow_le_mono_r; lia.
Qed.

Lemma SFopp_binary_round (p : positive) (e : Z) :
  SFopp (binary_round prec emax false p e) = binary_round prec emax true p e.
Proof.
  unfold binary_round.
  destruct (shl_align p e _) as [mz ez].
  unfold binary_round_aux.
  destruct (shr_fexp prec emax (Z.pos mz) ez loc_Exact) as [mrs' e'].
  destruct (shr_fexp prec emax _ e' loc_Exact) as [mrs'' e''].
  destruct (shr_m mrs''); [reflexivity | | reflexivity].
  now destruct (e'' <=? emax - prec).
Qed.

Lemma of_uint63_nearest (n : Z) :
  0 <= n < 2 ^ 63 -> of_uint63 (Uint63.of_Z n) = nearest_double n.
Proof.
  intros Hn. unfold nearest_double.
  rewrite <- (SF2Prim_Prim2SF (of_uint63 (Uint63.of_Z n))).
  rewrite FloatAxioms.of_uint63_spec, Uint63.of_Z_spec.
  rewrite Z.mod_small; [reflexivity|].
  change wB with (2 ^ 63). exact Hn.
Qed.

Lemma of_Z_nearest (n : Z) :
  - 2 ^ 63 < n < 2 ^ 63 -> JSNumber.of_Z n = nearest_double n.
Proof.
  intros Hn. unfold JSNumber.of_Z.
  destruct (Z.ltb_spec n 0) as [Hneg|Hpos].
  - unfold nearest_double.
    rewrite <- (SF2Prim_Prim2SF (- _)%float).
    rewrite FloatAxioms.opp_spec, FloatAxioms.of_uint63_spec, Uint63.of_Z_spec.
    rewrite Z.mod_small by (change wB with (2 ^ 63); lia).
    destruct n as [|p|p]; try lia.
    change (- Z.neg p) with (Z.pos p). unfold binary_normalize.
    now rewrite SFopp_binary_round.
  - apply of_uint63_nearest. lia.
Qed.

(** The number [m * 2^e] of 53 digits is what the integer it is equal to
    converts to. *)
Lemma binary_normalize_exact (s : bool) (m p : positive) (k : positive) :
  Z.pos (digits2_pos m) = 53 ->
  Z.pos m = Z.pos p * 2 ^ Z.pos k ->
  binary_normalize prec emax (if s then Z.neg p else Z.pos p) 0 false
  = S754_finite s m (Z.neg k).
Proof.
  intros Hd Hm.
  assert (Hk : Z.pos k <= 52).
  { pose proof (digits2_pos_bounds m) as [_ Hhi]. rewrite Hd in Hhi.
    assert (2 ^ Z.pos k < 2 ^ 53) by nia.
    assert (Z.pos k < 53); [|lia].
    apply (Z.pow_lt_mono_r_iff 2); lia. }
  assert (Hp : Z.pos (digits2_pos p) = 53 - Z.pos k).
  { apply digits2_pos_unique.
    pose proof (digits2_pos_bounds m) as [Hlo Hhi]. rewrite Hd in Hlo, Hhi.
    replace (2 ^ (53 - 1)) with (2 ^ (53 - Z.pos k - 1) * 2 ^ Z.pos k) in Hlo
      by (rewrite <- Z.pow_add_r by lia; f_equal; lia).
    replace (2 ^ 53) with (2 ^ (53 - Z.pos k) * 2 ^ Z.pos k) in Hhi
      by (rewrite <- Z.pow_add_r by lia; f_equal; lia).
    assert (0 < 2 ^ Z.pos k) by (apply Z.pow_pos_nonneg; lia).
    split; nia. }
  assert (Hshift : Pos.iter xO p k = m).
  { apply Pos2Z.inj. change (Pos.iter xO p k) with (shift_pos k p).
    rewrite shift_pos_correct, Z.pow_pos_fold. lia. }
  assert (R : binary_round prec emax s p 0 = S754_finite s m (Z.neg k)).
  { unfold binary_round, shl_align, fexp, SpecFloat.emin, prec, emax.
    rewrite Hp.
    replace (Z.max (53 - Z.pos k + 0 - 53) (3 - 1024 - 53) - 0)
      with (Z.neg k) by lia.
    rewrite Hshift.
    replace (Z.max (53 - Z.pos k + 0 - 53) (3 - 1024 - 53))
      with (Z.neg k) by lia.
    unfold binary_round_aux, shr_fexp, fexp, SpecFloat.emin.
    cbn [Zdigits2 shr_record_of_loc]. rewrite Hd.
    replace (Z.max (53 + Z.neg k - 53) (3 - 1024 - 53) - Z.neg k) with 0 by lia.
    cbn [shr shr_m loc_of_shr_record round_nearest_even Zdigits2
         shr_record_of_loc]. rewrite Hd.
    replace (Z.max (53 + Z.neg k - 53) (3 - 1024 - 53) - Z.neg k) with 0 by lia.
    cbn [shr shr_m]. reflexivity. }
  destruct s; exact R.
Qed.

Lemma ltb_zero_finite (x : float) (s : bool) (m : positive) (e : Z) :
  Prim2SF x = S754_finite s m e -> (x <? 0)%float = s.
Proof.
  intros E. rewrite FloatAxioms.ltb_spec, E.
  now destruct s.
Qed.

Lemma Qfloor_half (M : Z) (d : positive) :
  Qfloor (Qplus (Qmake M d) (Qmake 1 2)) = (2 * M + Z.pos d) / (2 * Z.pos d).
Proof.
  unfold Qfloor, Qplus. cbn [Qnum Qden].
  rewrite Pos2Z.inj_mul. f_equal; lia.
Qed.

(** [Math_round] is [Math.round] as ECMAScript defines it. *)
Lemma Math_round_round_half_up (x : float) : Math_round x = round_half_up x.
Proof.
  unfold Math_round, round_half_up, exact_value.
  destruct (Prim2SF x) as [z| | |s m e] eqn:E; try reflexivity.
  cbv zeta. destruct (Z.leb_spec 0 e) as [He|He].
  - unfold Qeq_bool, Qfloor, inject_Z. cbn [Qnum Qden].
    rewrite Z.div_1_r. now rewrite Z.eqb_refl.
  - set (M := if s then Z.neg m else Z.pos m).
    destruct e as [|k|k]; try lia.
    change (- Z.neg k) with (Z.pos k). change (1 - Z.neg k) with (1 + Z.pos k).
    cbn [Z.to_pos].
    assert (Hd : Z.pos (2 ^ k) = 2 ^ Z.pos k) by apply Pos2Z.inj_pow.
    assert (Hpow : 0 < 2 ^ Z.pos k) by (apply Z.pow_pos_nonneg; lia).
    rewrite Qfloor_half, Hd.
    replace (2 ^ (1 + Z.pos k)) with (2 * 2 ^ Z.pos k)
      by (rewrite Z.pow_add_r by lia; reflexivity).
    replace (2 * M + 2 ^ Z.pos k) with (2 * M + 2 ^ Z.pos k) by reflexivity.
    set (n := (2 * M + 2 ^ Z.pos k) / (2 * 2 ^ Z.pos k)).
    pose proof (finite_mantissa_bound x s m _ E) as Hm.
    assert (Hn : - 2 ^ 63 < n < 2 ^ 63).
    { assert (- 2 ^ 53 <= n <= 2 ^ 53); [|lia].
      unfold n. split.
      - apply Z.div_le_lower_bound; [lia|]. destruct s; unfold M; nia.
      - apply Z.div_le_upper_bound; [lia|]. destruct s; unfold M; nia. }
    unfold Qeq_bool, Qfloor, inject_Z. cbn [Qnum Qden]. rewrite Hd.
    destruct (Z.eqb_spec (M * 1) (M / 2 ^ Z.pos k * 2 ^ Z.pos k))
      as [Hint|_].
    + (* [x] is integral *)
      set (q := M / 2 ^ Z.pos k) in *.
      assert (HM : M = q * 2 ^ Z.pos k) by lia.
      assert (Hq : n = q).
      { unfold n. rewrite HM. symmetry.
        apply (Z.div_unique _ _ q (2 ^ Z.pos k)); [lia | ring]. }
      assert (Hq0 : q <> 0)
        by (intros Z0; rewrite Z0 in HM; destruct s; discriminate HM).
      assert (Hlow : 2 ^ Z.pos k <= Z.pos m).
      { destruct s; unfold M in HM.
        - assert (q < 0) by nia. nia.
        - assert (0 < q) by nia. nia. }
      assert (Hd53 : Z.pos (digits2_pos m) = 53).
      { destruct (finite_canonical x s m _ E) as [C _].
        destruct (Z.eq_dec (Z.pos (digits2_pos m)) 53) as [|Hne];
          [assumption|exfalso].
        assert (Hk : Z.pos k = 1074) by lia.
        assert (2 ^ 1074 <= Z.pos m); [|
          assert (2 ^ 53 < 2 ^ 1074) by (apply Z.pow_lt_mono_r; lia); lia].
        now rewrite <- Hk. }
      rewrite Hq. destruct (Z.eqb_spec q 0) as [|_]; [contradiction|].
      rewrite of_Z_nearest by lia. unfold nearest_double.
      rewrite <- (SF2Prim_Prim2SF x), E. f_equal.
      destruct q as [|p|p]; [contradiction| |].
      * destruct s; unfold M in HM; [lia|].
        apply (binary_normalize_exact false m p k Hd53). lia.
      * destruct s; unfold M in HM; [|lia].
        apply (binary_normalize_exact true m p k Hd53). lia.
    + rewrite (ltb_zero_finite x s m _ E).
      destruct (n =? 0); [reflexivity | now apply of_Z_nearest].
Qed.

End RoundingFacts.

(* ------------------------------------------------------------------ *)
(** ** Room coverage *)

Section Coverage.

Local Open Scope float_scope.

Lemma reduce_visible (furniture : list Furniture.t) (acc : float) :
  fold_left (fun sum item => sum + footprint item)
    (filter Furniture.visible furniture) acc
  = add_visible_footprints acc furniture.
Proof.
  revert acc. induction furniture as [|item rest IH]; intros acc;
    [reflexivity|].
  simpl. destruct (Furniture.visible item); simpl; apply IH.
Qed.

Lemma length_visible (furniture : list Furniture.t) :
  List.length (filter Furniture.visible furniture) = count_visible furniture.
Proof.
  induction furniture as [|item rest IH]; [reflexivity|].
  simpl. destruct (Furniture.visible item); simpl; now rewrite IH.
Qed.


Lemma hidden_add_nothing (furniture : list Furniture.t) (acc : float) :
  Forall (fun f => Furniture.visible f = false) furniture ->
  add_visible_footprints acc furniture = acc /\ count_visible furniture = 0%nat.
Proof.
  induction 1 as [|item rest Hitem _ [IH1 IH2]]; [now split|].
  simpl. now rewrite Hitem, IH1, IH2.
Qed.

Lemma visible_only (furniture : list Furniture.t)
  (roomWidth roomDepth : float) :
  calculateRoomCoverage (filter Furniture.visible furniture)
    roomWidth roomDepth
  = calculateRoomCoverage furniture roomWidth roomDepth.
Proof.
  unfold calculateRoomCoverage.
  replace (filter Furniture.visible (filter Furniture.visible furniture))
    with (filter Furniture.visible furniture); [reflexivity|].
  induction furniture as [|item rest IH]; [reflexivity|].
  simpl. destruct (Furniture.visible item) eqn:E; simpl;
    [rewrite E; now f_equal | exact IH].
Qed.

(** The percentage is an infinity or NaN as soon as the quotient is. *)
Lemma percentage_not_finite (quotient : float) :
  sf_not_finite (Prim2SF quotient) = true ->
  not_finite (Math_round (quotient * 100 * 10) / 10).
Proof.
  intros H. apply not_finite_sf.
  assert (H10 : sf_not_finite (Prim2SF (quotient * 100 * 10)) = true).
  { apply (mul_not_finite _ 10 false 5629499534213120 (-49));
      [reflexivity|].
    apply (mul_not_finite _ 100 false 7036874417766400 (-46));
      [reflexivity | exact H]. }
  rewrite Math_round_not_finite by exact H10.
  apply (div_not_finite _ 10 false 5629499534213120 (-49));
    [reflexivity | exact H10].
Qed.

Lemma zero_area_not_finite (furniture : list Furniture.t)
  (roomWidth roomDepth : float) :
  (roomArea roomWidth roomDepth =? 0) = true \/
  Prim2SF (roomArea roomWidth roomDepth) = S754_nan ->
  not_finite (RoomCoverage.coveragePercentage
                (calculateRoomCoverage furniture roomWidth roomDepth)).
Proof.
  intros H. unfold calculateRoomCoverage. cbv zeta.
  cbn [RoomCoverage.coveragePercentage].
  apply percentage_not_finite.
  destruct H as [H|H]; [now apply div_by_zero_not_finite | now apply div_by_nan].
Qed.

End Coverage.

Section CoverageClaims.

Local Open Scope float_scope.

Lemma calculateRoomCoverage_rounded (furniture : list Furniture.t)
  (roomWidth roomDepth : float) :
  calculateRoomCoverage furniture roomWidth roomDepth =
  {| RoomCoverage.totalFootprint :=
       rounded_by 100 (visible_footprint_sum furniture);
     RoomCoverage.coveragePercentage :=
       rounded_by 10
         (visible_footprint_sum furniture / (roomWidth * roomDepth) * 100);
     RoomCoverage.itemCount := count_visible furniture |}.
Proof.
  unfold calculateRoomCoverage, rounded_by, roomArea. cbv zeta.
  rewrite reduce_visible, length_visible, <- !Math_round_round_half_up.
  reflexivity.
Qed.

(** Three inputs on which the coverage is not what a room of positive
    width and depth and a rounding to 2 decimal places promise.

    The product of two tiny positive numbers underflows to 0, and the
    percentage of hidden furniture is then 0/0, which is NaN and not 0.

    The footprint of one visible item of 2.23 m by 0.5 m is a number
    between 1.105 and 1.115, so the number of two decimals nearest to it is
    1.11; what is reported is 1.12, because the product of the footprint by
    100 is rounded to 111.5 before [Math.round] sees it.

    The footprint of one visible item of 1.005 m by 1 m is reported as 1
    and not as 1.01: the number written 1.005 is the binary64 number
    nearest to it, which is below it.  So the footprint reported is the
    sum rounded to 2 decimal places neither when the sum is taken as the
    binary64 number it is nor when it is taken as the decimal it was
    written as. *)
Lemma coverage_nan_and_misrounding :
  (let furniture := [sample_item 2 1 false] in
   let stats := calculateRoomCoverage furniture 1e-200 1e-200 in
   (0 <? 1e-200) = true /\
   Forall (fun f => Furniture.visible f = false) furniture /\
   roomArea 1e-200 1e-200 = 0 /\
   RoomCoverage.coveragePercentage stats = nan /\
   RoomCoverage.coveragePercentage stats <> 0) /\
  (let furniture := [sample_item 2.23 0.5 true] in
   let stats := calculateRoomCoverage furniture 10 8 in
   (0 <? 10) = true /\ (0 <? 8) = true /\
   (exists sum : Q,
      exact_value (visible_footprint_sum furniture) = Some sum /\
      Qlt (Qmake 1105 1000) sum /\ Qlt sum (Qmake 1115 1000)) /\
   RoomCoverage.totalFootprint stats = 1.12 /\
   (RoomCoverage.totalFootprint stats =? 1.11) = false) /\
  (let stats := calculateRoomCoverage [sample_item 1.005 1 true] 10 8 in
   RoomCoverage.totalFootprint stats = 1 /\
   (RoomCoverage.totalFootprint stats =? 1.01) = false).
Proof.
  cbv zeta. split; [|split].
  - assert (Hnan : RoomCoverage.coveragePercentage
                     (calculateRoomCoverage [sample_item 2 1 false]
                        1e-200 1e-200) = nan)
      by (vm_compute; reflexivity).
    split; [reflexivity | split; [now repeat constructor | split]].
    + vm_compute. reflexivity.
    + split; [exact Hnan|]. rewrite Hnan. intros E.
      apply (f_equal is_nan) in E. vm_compute in E. discriminate E.
  - split; [reflexivity | split; [reflexivity | split; [|split]]].
    + eexists. split; [vm_compute; reflexivity|].
      split; vm_compute; reflexivity.
    + vm_compute. reflexivity.
    + vm_compute. reflexivity.
  - split; vm_compute; reflexivity.
Qed.

(** C3 (amended): [totalFootprint] is the sum of width x depth over the
    visible items, rounded at the second decimal place by scaling:
    [Math.round] of the sum times 100, divided by 100;
    [coveragePercentage] is that sum divided by the room area, times 100,
    rounded at the first decimal place the same way; [itemCount] is the
    number of visible items; hidden items do not change any of the three;
    and when the product of the positive room width and depth is itself
    positive, furniture that is all hidden gives 0, 0, 0.  Sums, products
    and quotients are those of binary64 arithmetic, and [Math.round] is the
    function that ECMAScript defines. *)
Theorem calculateRoomCoverage_spec (furniture : list Furniture.t)
  (roomWidth roomDepth : float) :
  (0 <? roomWidth) = true -> (0 <? roomDepth) = true ->
  (0 <? roomWidth * roomDepth) = true ->
  let stats := calculateRoomCoverage furniture roomWidth roomDepth in
  RoomCoverage.totalFootprint stats =
    rounded_by 100 (visible_footprint_sum furniture) /\
  RoomCoverage.coveragePercentage stats =
    rounded_by 10
      (visible_footprint_sum furniture / (roomWidth * roomDepth) * 100) /\
  RoomCoverage.itemCount stats = count_visible furniture /\
  calculateRoomCoverage (filter Furniture.visible furniture)
    roomWidth roomDepth = stats /\
  (Forall (fun f => Furniture.visible f = false) furniture ->
   stats = {| RoomCoverage.totalFootprint := 0;
              RoomCoverage.coveragePercentage := 0;
              RoomCoverage.itemCount := 0 |}).
Proof.
  intros _ _ Harea stats. unfold stats.
  rewrite visible_only, calculateRoomCoverage_rounded.
  repeat split.
  intros Hhidden. unfold visible_footprint_sum.
  destruct (hidden_add_nothing furniture 0 Hhidden) as [-> ->].
  rewrite (zero_div_positive _ Harea). vm_compute. reflexivity.
Qed.

Lemma calculateRoomCoverage_spec_witness :
  let furniture := [sample_item 2 1 true; sample_item 1.5 2 false] in
  (0 <? 10) = true /\ (0 <? 8) = true /\ (0 <? 10 * 8) = true /\
  RoomCoverage.totalFootprint (calculateRoomCoverage furniture 10 8)
  = rounded_by 100 (visible_footprint_sum furniture) /\
  calculateRoomCoverage (filter Furniture.visible furniture) 10 8
  = calculateRoomCoverage furniture 10 8 /\
  RoomCoverage.itemCount (calculateRoomCoverage furniture 10 8)
  = count_visible furniture.
Proof.
  pose proof (calculateRoomCoverage_spec
                [sample_item 2 1 true; sample_item 1.5 2 false] 10 8
                eq_refl eq_refl eq_refl)
    as (Htotal & _ & Hcount & Hvisible & _).
  exact (conj eq_refl (conj eq_refl (conj eq_refl
           (conj Htotal (conj Hvisible Hcount))))).
Defined.

(** A positive width and depth do not keep the divisor away from 0. *)
Lemma positive_dimensions_zero_area :
  let stats := calculateRoomCoverage [sample_item 2 1 true] 1e-200 1e-200 in
  (0 <? 1e-200) = true /\
  (roomArea 1e-200 1e-200 =? 0) = true /\
  RoomCoverage.coveragePercentage stats = infinity.
Proof. cbv zeta. repeat split; vm_compute; reflexivity. Qed.

(** C8 (amended): [calculateRoomCoverage] divides by the room area without
    looking at it.  A room area that is positive as computed is not zero; a
    room area of zero, which a zero width or depth gives, makes the
    percentage an infinity or NaN, and nothing is raised. *)
Theorem calculateRoomCoverage_division (furniture : list Furniture.t)
  (roomWidth roomDepth : float) :
  let percentage :=
    RoomCoverage.coveragePercentage
      (calculateRoomCoverage furniture roomWidth roomDepth) in
  ((0 <? roomArea roomWidth roomDepth) = true ->
   (roomArea roomWidth roomDepth =? 0) = false) /\
  ((roomArea roomWidth roomDepth =? 0) = true -> not_finite percentage) /\
  ((roomWidth =? 0) = true \/ (roomDepth =? 0) = true ->
   not_finite percentage).
Proof.
  cbv zeta. split; [apply positive_not_zero | split].
  - intros H. apply zero_area_not_finite. now left.
  - intros H. apply zero_area_not_finite. now apply mul_zero_factor.
Qed.

Lemma calculateRoomCoverage_division_witness :
  ((0 <? roomArea 10 8) = true /\ (roomArea 10 8 =? 0) = false) /\
  ((roomArea 0 8 =? 0) = true /\
   not_finite (RoomCoverage.coveragePercentage
                 (calculateRoomCoverage [sample_item 2 1 true] 0 8))) /\
  ((0 =? 0) = true /\
   not_finite (RoomCoverage.coveragePercentage
                 (calculateRoomCoverage [] 10 0))).
Proof.
  split; [|split]; (split; [reflexivity|]).
  - destruct (calculateRoomCoverage_division [] 10 8) as (H & _ & _).
    exact (H eq_refl).
  - destruct (calculateRoomCoverage_division [sample_item 2 1 true] 0 8)
      as (_ & H & _).
    exact (H eq_refl).
  - destruct (calculateRoomCoverage_division [] 10 0) as (_ & _ & H).
    exact (H (or_intror eq_refl)).
Defined.


End CoverageClaims.

(* ------------------------------------------------------------------ *)
(** ** Writing and reading integers *)

Section NumberPrinting.

Local Open Scope string_scope.
Local Open Scope Z_scope.

Lemma length_append (a b : string) :
  String.length (a ++ b) = (String.length a + String.length b)%nat.
Proof. induction a as [|c a IH]; simpl; [reflexivity | now rewrite IH]. Qed.

Lemma digit_value_char (d : Z) :
  0 <= d < 36 -> digit_value (digit_char d) = Some d.
Proof.
  intros Hd.
  assert (Hk : exists k, (k < 36)%nat /\ d = Z.of_nat k)
    by (exists (Z.to_nat d); lia).
  destruct Hk as (k & Hk & ->).
  do 36 (destruct k as [|k]; [reflexivity|]). lia.
Qed.

Lemma digit_char_not_minus (d : Z) : digit_char d <> "-"%char.
Proof.
  unfold digit_char.
  generalize (Z.to_nat d). intros k.
  do 37 (destruct k as [|k]; [discriminate|]). destruct k; discriminate.
Qed.

Lemma parse_digits_app (radix acc : Z) (s1 s2 : string) :
  parse_digits radix acc (s1 ++ s2) =
  match parse_digits radix acc s1 with
  | Some v => parse_digits radix v s2
  | None => None
  end.
Proof.
  revert acc. induction s1 as [|c s1 IH]; intros acc; simpl; [reflexivity|].
  destruct (digit_value c) as [d|]; [|reflexivity].
  destruct (d <? radix); [apply IH | reflexivity].
Qed.

Lemma digits_loop_acc (fuel : nat) (radix n : Z) (acc : string) :
  digits_loop fuel radix n acc = digits_loop fuel radix n "" ++ acc.
Proof.
  revert n acc. induction fuel as [|fuel IH]; intros n acc; simpl;
    [reflexivity|].
  destruct (n / radix =? 0); [reflexivity|].
  rewrite IH. rewrite (IH _ (String _ "")).
  now rewrite append_assoc.
Qed.

Lemma digits_loop_nonempty (fuel : nat) (radix n : Z) :
  digits_loop (S fuel) radix n "" <> "".
Proof.
  simpl. destruct (n / radix =? 0); [discriminate|].
  rewrite digits_loop_acc. destruct (digits_loop fuel radix (n / radix) "");
    discriminate.
Qed.

(** With enough fuel the digits written for [n] read back as [n]. *)
Lemma parse_digits_loop (radix : Z) (fuel : nat) (n : Z) :
  2 <= radix <= 36 -> 0 <= n < radix ^ Z.of_nat fuel ->
  parse_digits radix 0 (digits_loop fuel radix n "") = Some n.
Proof.
  intros Hr. revert n. induction fuel as [|fuel IH]; intros n Hn.
  - simpl in *. f_equal. lia.
  - rewrite Nat2Z.inj_succ, Z.pow_succ_r in Hn by lia.
    assert (Hmod : 0 <= n mod radix < radix) by (apply Z.mod_pos_bound; lia).
    assert (Hdiv : n = radix * (n / radix) + n mod radix)
      by (apply Z.div_mod; lia).
    simpl. destruct (n / radix =? 0) eqn:E.
    + apply Z.eqb_eq in E. simpl.
      rewrite digit_value_char by lia.
      replace (n mod radix <? radix) with true by (symmetry; apply Z.ltb_lt; lia).
      f_equal. lia.
    + apply Z.eqb_neq in E. rewrite digits_loop_acc, parse_digits_app.
      rewrite IH.
      * simpl. rewrite digit_value_char by lia.
        replace (n mod radix <? radix) with true
          by (symmetry; apply Z.ltb_lt; lia).
        f_equal. lia.
      * split; [apply Z.div_pos; lia|].
        apply Z.div_lt_upper_bound; lia.
Qed.

Lemma enough_fuel (radix n : Z) :
  2 <= radix -> 0 <= n -> n < radix ^ Z.of_nat (S (Z.to_nat (Z.log2 n))).
Proof.
  intros Hr Hn. rewrite Nat2Z.inj_succ, Z2Nat.id by apply Z.log2_nonneg.
  destruct (Z.eq_dec n 0) as [->|Hne].
  - simpl. lia.
  - apply Z.lt_le_trans with (2 ^ Z.succ (Z.log2 n)).
    + apply Z.log2_spec. lia.
    + apply Z.pow_le_mono_l. lia.
Qed.

Lemma parse_integer_digits (radix v : Z) (s : string) :
  s <> "" -> parse_digits radix 0 s = Some v ->
  parse_integer radix s = Some v.
Proof.
  intros Hs Hp. destruct s as [|c s]; [congruence|].
  unfold parse_integer.
  destruct (ascii_dec c "-") as [->|Hc].
  - simpl in Hp. discriminate.
  - destruct c as [[] [] [] [] [] [] [] []]; try exact Hp. congruence.
Qed.

(** What [Number_toString] writes, in a radix from 2 to 36, reads back as
    the number. *)
Lemma parse_Number_toString (radix n : Z) :
  2 <= radix <= 36 -> parse_integer radix (Number_toString radix n) = Some n.
Proof.
  intros Hr. unfold Number_toString.
  assert (Hd : parse_digits radix 0
                 (digits_loop (S (Z.to_nat (Z.log2 (Z.abs n)))) radix
                    (Z.abs n) "") = Some (Z.abs n)).
  { apply parse_digits_loop; [exact Hr|]. split; [lia|].
    apply enough_fuel; lia. }
  destruct (n <? 0) eqn:E.
  - apply Z.ltb_lt in E. unfold parse_integer.
    destruct (digits_loop _ radix (Z.abs n) "") as [|c s] eqn:D.
    + now apply digits_loop_nonempty in D.
    + rewrite Hd. simpl. f_equal. lia.
  - apply Z.ltb_ge in E. rewrite (parse_integer_digits radix (Z.abs n)).
    + f_equal. lia.
    + apply digits_loop_nonempty.
    + exact Hd.
Qed.

Lemma Number_toString_inj (radix n m : Z) :
  2 <= radix <= 36 ->
  Number_toString radix n = Number_toString radix m -> n = m.
Proof.
  intros Hr E.
  pose proof (parse_Number_toString radix n Hr) as Hn.
  rewrite E, parse_Number_toString in Hn by exact Hr. congruence.
Qed.

(** A number of [k + 1] digits or more is written with as many. *)
Lemma digits_loop_length (radix : Z) (k fuel : nat) (n : Z) :
  2 <= radix -> radix ^ Z.of_nat k <= n < radix ^ Z.of_nat fuel ->
  (k < String.length (digits_loop fuel radix n ""))%nat.
Proof.
  intros Hr. revert fuel n. induction k as [|k IH]; intros fuel n Hn.
  - destruct fuel as [|fuel]; [simpl in Hn; lia|].
    pose proof (digits_loop_nonempty fuel radix n) as Hne.
    destruct (digits_loop (S fuel) radix n ""); [congruence | simpl; lia].
  - destruct fuel as [|fuel].
    + simpl in Hn. assert (0 < radix ^ Z.of_nat (S k)) by (apply Z.pow_pos_nonneg; lia). lia.
    + rewrite !Nat2Z.inj_succ, !Z.pow_succ_r in Hn by lia.
      simpl. destruct (n / radix =? 0) eqn:E.
      * apply Z.eqb_eq in E.
        assert (0 < radix ^ Z.of_nat k) by (apply Z.pow_pos_nonneg; lia).
        assert (n < radix) by (apply Z.div_small_iff in E; lia).
        nia.
      * rewrite digits_loop_acc, length_append. simpl.
        assert (Hk : (k < String.length
                            (digits_loop fuel radix (n / radix) ""))%nat).
        { apply IH. split.
          - apply Z.div_le_lower_bound; lia.
          - apply Z.div_lt_upper_bound; lia. }
        lia.
Qed.

End NumberPrinting.

(* ------------------------------------------------------------------ *)
(** ** Colour strings *)

Section ColourStrings.

Local Open Scope string_scope.
Local Open Scope Z_scope.

Lemma channel_hex_bytes :
  forallb
    (fun k =>
       String.eqb (channel_hex (Z.of_nat k))
         (String (digit_char (Z.of_nat k / 16))
            (String (digit_char (Z.of_nat k mod 16)) "")))
    (seq 0 256) = true.
Proof. vm_compute. reflexivity. Qed.

(** A channel from 0 to 255 is written as its two hex digits. *)
Lemma channel_hex_byte (n : Z) :
  0 <= n <= 255 ->
  channel_hex n =
  String (digit_char (n / 16)) (String (digit_char (n mod 16)) "").
Proof.
  intros Hn. pose proof channel_hex_bytes as H.
  rewrite forallb_forall in H. specialize (H (Z.to_nat n)).
  rewrite Z2Nat.id in H by lia. apply String.eqb_eq, H.
  apply in_seq. lia.
Qed.

Lemma parse_byte (n : Z) :
  0 <= n <= 255 ->
  parse_digits 16 0
    (String (digit_char (n / 16)) (String (digit_char (n mod 16)) ""))
  = Some n.
Proof.
  intros Hn.
  assert (Hq : 0 <= n / 16 < 16)
    by (split; [apply Z.div_pos; lia | apply Z.div_lt_upper_bound; lia]).
  assert (Hm : 0 <= n mod 16 < 16) by (apply Z.mod_pos_bound; lia).
  pose proof (Z.div_mod n 16 ltac:(lia)) as Hdm.
  cbn [parse_digits]. rewrite !digit_value_char by lia.
  replace (n / 16 <? 16) with true by (symmetry; apply Z.ltb_lt; lia).
  replace (n mod 16 <? 16) with true by (symmetry; apply Z.ltb_lt; lia).
  f_equal. lia.
Qed.

(** A channel above 255 takes three characters or more. *)
Lemma channel_hex_big (n : Z) :
  256 <= n -> (3 <= String.length (channel_hex n))%nat.
Proof.
  intros Hn. unfold channel_hex, Number_toString.
  replace (n <? 0) with false by (symmetry; apply Z.ltb_ge; lia).
  rewrite Z.abs_eq by lia.
  assert (Hl : (2 < String.length
                       (digits_loop (S (Z.to_nat (Z.log2 n))) 16 n ""))%nat).
  { apply digits_loop_length; [lia|]. split; [simpl; lia|].
    apply enough_fuel; lia. }
  cbv zeta.
  destruct (String.length _ =? 1)%nat eqn:E;
    [apply Nat.eqb_eq in E; lia | lia].
Qed.

(** A negative channel is written with its minus sign and is not padded. *)
Lemma channel_hex_negative (n : Z) :
  n < 0 -> exists c rest, channel_hex n = String "-" (String c rest).
Proof.
  intros Hn. unfold channel_hex, Number_toString.
  replace (n <? 0) with true by (symmetry; apply Z.ltb_lt; lia).
  pose proof (digits_loop_nonempty (Z.to_nat (Z.log2 (Z.abs n))) 16 (Z.abs n))
    as Hne.
  destruct (digits_loop _ 16 (Z.abs n) "") as [|c rest]; [congruence|].
  exists c, rest. reflexivity.
Qed.

Lemma channel_hex_length (n : Z) : (2 <= String.length (channel_hex n))%nat.
Proof.
  destruct (Z_lt_dec n 0) as [Hneg|Hpos].
  - destruct (channel_hex_negative n Hneg) as (c & rest & ->). simpl. lia.
  - destruct (Z_le_dec n 255) as [Hle|Hgt].
    + rewrite channel_hex_byte by lia. reflexivity.
    + pose proof (channel_hex_big n ltac:(lia)). lia.
Qed.

Lemma rgbToHex_channels (r g b : Z) :
  rgbToHex r g b = "#" ++ channel_hex r ++ channel_hex g ++ channel_hex b.
Proof. unfold rgbToHex. now rewrite join_concat. Qed.

Lemma parse_hex_color_length (s : string) (c : Z * Z * Z) :
  parse_hex_color s = Some c -> String.length s = 7%nat.
Proof.
  unfold parse_hex_color.
  destruct s as [|a s]; [discriminate|].
  destruct a as [[] [] [] [] [] [] [] []]; try discriminate.
  do 6 (destruct s as [|? s]; [discriminate|]).
  destruct s; [reflexivity | discriminate].
Qed.

Lemma two_characters (s : string) :
  String.length s = 2%nat -> exists c1 c2, s = String c1 (String c2 "").
Proof.
  destruct s as [|c1 [|c2 [|c3 s]]]; try discriminate. intros _. eauto.
Qed.

Lemma parse_hex_color_channels (r1 r2 g1 g2 b1 b2 : ascii) :
  parse_hex_color
    ("#" ++ String r1 (String r2 "") ++ String g1 (String g2 "") ++
     String b1 (String b2 ""))
  = match parse_digits 16 0 (String r1 (String r2 "")),
          parse_digits 16 0 (String g1 (String g2 "")),
          parse_digits 16 0 (String b1 (String b2 "")) with
    | Some r, Some g, Some b => Some (r, g, b)
    | _, _, _ => None
    end.
Proof. reflexivity. Qed.

Lemma parse_minus (c : ascii) :
  parse_digits 16 0 (String "-" (String c "")) = None.
Proof. reflexivity. Qed.

(** A channel that takes two characters and is not from 0 to 255 starts
    with a minus sign. *)
Lemma channel_hex_two (n : Z) :
  String.length (channel_hex n) = 2%nat -> ~ 0 <= n <= 255 ->
  exists c, channel_hex n = String "-" (String c "").
Proof.
  intros Hlen Hout. destruct (Z_lt_dec n 0) as [Hneg|Hpos].
  - destruct (channel_hex_negative n Hneg) as (c & rest & E).
    rewrite E in *. destruct rest; [eauto | discriminate].
  - pose proof (channel_hex_big n ltac:(lia)). lia.
Qed.

Lemma rgbToHex_in_range (r g b : Z) :
  0 <= r <= 255 -> 0 <= g <= 255 -> 0 <= b <= 255 ->
  parse_hex_color (rgbToHex r g b) = Some (r, g, b).
Proof.
  intros Hr Hg Hb. rewrite rgbToHex_channels.
  rewrite !channel_hex_byte by lia.
  rewrite parse_hex_color_channels, !parse_byte by lia. reflexivity.
Qed.

(** X1: [rgbToHex] writes a colour ["#rrggbb"] that reads back as the three
    channels when each of them is from 0 to 255; with a channel outside
    that range what it writes is not such a colour. *)
Theorem rgbToHex_parse (r g b : Z) :
  parse_hex_color (rgbToHex r g b) =
  if ((0 <=? r) && (r <=? 255) && (0 <=? g) && (g <=? 255) &&
      (0 <=? b) && (b <=? 255))%bool
  then Some (r, g, b) else None.
Proof.
  destruct ((0 <=? r) && (r <=? 255) && (0 <=? g) && (g <=? 255) &&
            (0 <=? b) && (b <=? 255))%bool eqn:Hrange.
  - rewrite !andb_true_iff, !Z.leb_le in Hrange.
    apply rgbToHex_in_range; lia.
  - rewrite rgbToHex_channels.
    destruct (parse_hex_color _) as [c|] eqn:P; [exfalso | reflexivity].
    pose proof (parse_hex_color_length _ _ P) as Hlen.
    rewrite !length_append in Hlen. simpl in Hlen.
    pose proof (channel_hex_length r). pose proof (channel_hex_length g).
    pose proof (channel_hex_length b).
    assert (Hr : String.length (channel_hex r) = 2%nat) by lia.
    assert (Hg : String.length (channel_hex g) = 2%nat) by lia.
    assert (Hb : String.length (channel_hex b) = 2%nat) by lia.
    destruct (two_characters _ Hr) as (r1 & r2 & Er).
    destruct (two_characters _ Hg) as (g1 & g2 & Eg).
    destruct (two_characters _ Hb) as (b1 & b2 & Eb).
    assert (Hout : ~ 0 <= r <= 255 \/ ~ 0 <= g <= 255 \/ ~ 0 <= b <= 255).
    { rewrite !andb_false_iff, !Z.leb_gt in Hrange. lia. }
    rewrite Er, Eg, Eb, parse_hex_color_channels in P.
    rewrite <- Er, <- Eg, <- Eb in P.
    destruct Hout as [Hout|[Hout|Hout]].
    + destruct (channel_hex_two r Hr Hout) as (c1 & E).
      rewrite E, parse_minus in P. discriminate.
    + destruct (channel_hex_two g Hg Hout) as (c1 & E).
      rewrite E, parse_minus in P.
      destruct (parse_digits 16 0 (channel_hex r)); discriminate.
    + destruct (channel_hex_two b Hb Hout) as (c1 & E).
      rewrite E, parse_minus in P.
      destruct (parse_digits 16 0 (channel_hex r));
        [destruct (parse_digits 16 0 (channel_hex g))|]; discriminate.
Qed.

(** X2: Within 0 to 255 different colours are written differently. *)
Theorem rgbToHex_injective (r g b r' g' b' : Z) :
  0 <= r <= 255 -> 0 <= g <= 255 -> 0 <= b <= 255 ->
  0 <= r' <= 255 -> 0 <= g' <= 255 -> 0 <= b' <= 255 ->
  rgbToHex r g b = rgbToHex r' g' b' ->
  r = r' /\ g = g' /\ b = b'.
Proof.
  intros Hr Hg Hb Hr' Hg' Hb' E.
  assert (P : parse_hex_color (rgbToHex r g b) =
              parse_hex_color (rgbToHex r' g' b')) by now rewrite E.
  rewrite !rgbToHex_in_range in P by assumption.
  now inversion P.
Qed.

Lemma rgbToHex_injective_witness :
  rgbToHex 139 90 60 = rgbToHex 139 90 60 /\
  (139 = 139 /\ 90 = 90 /\ 60 = 60).
Proof.
  split; [reflexivity|].
  apply (rgbToHex_injective 139 90 60 139 90 60); try lia. reflexivity.
Defined.

End ColourStrings.

(* ------------------------------------------------------------------ *)
(** ** Toggling visibility *)

Section Toggling.

Local Open Scope string_scope.

Lemma set_visible_same (item : Furniture.t) :
  set_visible (Furniture.visible item) item = item.
Proof. now destruct item. Qed.

Lemma set_visible_twice (v w : bool) (item : Furniture.t) :
  set_visible v (set_visible w item) = set_visible v item.
Proof. reflexivity. Qed.

Lemma set_visible_with (v w : bool) (r : CatalogRecord.t) :
  set_visible v (with_visible w r) = with_visible v r.
Proof. reflexivity. Qed.

Lemma handleToggleFurniture_items (id : string)
  (furniture : list Furniture.t) :
  map (set_visible true) (handleToggleFurniture id furniture)
  = map (set_visible true) furniture.
Proof.
  unfold handleToggleFurniture. rewrite map_map. apply map_ext.
  intros item. now destruct (Furniture.id item =? id).
Qed.

(** X3: A second click on the same item undoes the first. *)
Theorem handleToggleFurniture_involutive (id : string)
  (furniture : list Furniture.t) :
  handleToggleFurniture id (handleToggleFurniture id furniture) = furniture.
Proof.
  unfold handleToggleFurniture. rewrite map_map.
  rewrite <- (map_id furniture) at 2. apply map_ext. intros item.
  destruct (Furniture.id item =? id) eqn:E; simpl; rewrite E; [|reflexivity].
  rewrite negb_involutive, set_visible_twice. apply set_visible_same.
Qed.



(** X5: Clicks on two items can be made in either order. *)
Theorem handleToggleFurniture_commute (id1 id2 : string)
  (furniture : list Furniture.t) :
  handleToggleFurniture id1 (handleToggleFurniture id2 furniture)
  = handleToggleFurniture id2 (handleToggleFurniture id1 furniture).
Proof.
  unfold handleToggleFurniture. rewrite !map_map. apply map_ext.
  intros item.
  destruct (Furniture.id item =? id1) eqn:E1,
           (Furniture.id item =? id2) eqn:E2; simpl;
    rewrite ?E1, ?E2; reflexivity.
Qed.

Lemma NoDup_ids_same (furniture : list Furniture.t) (a b : Furniture.t) :
  NoDup (map Furniture.id furniture) ->
  In a furniture -> In b furniture -> Furniture.id a = Furniture.id b ->
  a = b.
Proof.
  induction furniture as [|x l IH]; intros Hnd Ha Hb E; [destruct Ha|].
  simpl in Hnd. apply NoDup_cons_iff in Hnd as [Hx Hnd].
  destruct Ha as [->|Ha], Hb as [->|Hb]; auto.
  - exfalso. apply Hx. rewrite E. now apply in_map.
  - exfalso. apply Hx. rewrite <- E. now apply in_map.
Qed.

(** X6: With distinct ids a click on an item of the list changes the number of
    visible items by exactly one: up when the item was hidden, down when it
    was visible. *)
Theorem handleToggleFurniture_count (item : Furniture.t)
  (furniture : list Furniture.t) :
  NoDup (map Furniture.id furniture) -> In item furniture ->
  let count := count_visible furniture in
  let count' :=
    count_visible (handleToggleFurniture (Furniture.id item) furniture) in
  if Furniture.visible item then S count' = count else count' = S count.
Proof.
  unfold handleToggleFurniture.
  induction furniture as [|x l IH]; intros Hnd Hin; [destruct Hin|].
  simpl in Hnd. apply NoDup_cons_iff in Hnd as [Hx Hnd]. cbv zeta.
  destruct Hin as [->|Hin].
  - simpl. rewrite String.eqb_refl. simpl.
    assert (Hrest : map (fun i => if Furniture.id i =? Furniture.id item
                                  then set_visible (negb (Furniture.visible i)) i
                                  else i) l = l).
    { rewrite <- (map_id l) at 2. apply map_ext_in. intros i Hi.
      destruct (Furniture.id i =? Furniture.id item) eqn:E; [|reflexivity].
      apply String.eqb_eq in E. exfalso. apply Hx. rewrite <- E.
      now apply in_map. }
    rewrite Hrest. now destruct (Furniture.visible item).
  - assert (Hne : (Furniture.id x =? Furniture.id item) = false).
    { apply String.eqb_neq. intros E. apply Hx. rewrite E. now apply in_map. }
    simpl. rewrite Hne. specialize (IH Hnd Hin). cbv zeta in IH.
    destruct (Furniture.visible item), (Furniture.visible x); simpl; lia.
Qed.

Lemma handleToggleFurniture_count_witness :
  let furniture := [sample_item 2 1 true] in
  NoDup (map Furniture.id furniture) /\
  In (sample_item 2 1 true) furniture /\
  S (count_visible (handleToggleFurniture "sample-001" furniture))
  = count_visible furniture.
Proof.
  assert (Hnd : NoDup (map Furniture.id [sample_item 2 1 true]))
    by (repeat constructor; intros []).
  assert (Hin : In (sample_item 2 1 true) [sample_item 2 1 true])
    by now left.
  exact (conj Hnd (conj Hin
           (handleToggleFurniture_count (sample_item 2 1 true)
              [sample_item 2 1 true] Hnd Hin))).
Defined.

End Toggling.

(* ------------------------------------------------------------------ *)
(** ** The toggle-all button and the states of the page *)

Section PageStates.

Local Open Scope string_scope.

Lemma fold_conditional {A S : Type} (c : A -> bool) (g : A -> S -> S)
  (l : list A) (s : S) :
  fold_left (fun state a => if c a then g a state else state) l s
  = fold_left (fun state a => g a state) (filter c l) s.
Proof.
  revert s. induction l as [|a l IH]; intros s; [reflexivity|].
  simpl. destruct (c a); simpl; apply IH.
Qed.

Lemma fold_toggle_ids (l : list Furniture.t) (s : list Furniture.t) :
  fold_left (fun state f => handleToggleFurniture (Furniture.id f) state) l s
  = fold_left (fun state id => handleToggleFurniture id state)
      (map Furniture.id l) s.
Proof.
  revert s. induction l as [|a l IH]; intros s; [reflexivity | apply IH].
Qed.

(** Clicks on distinct ids flip the items that have one of the ids. *)
Lemma toggle_ids (ids : list string) (s : list Furniture.t) :
  NoDup ids ->
  fold_left (fun state id => handleToggleFurniture id state) ids s
  = map (fun item =>
           if existsb (String.eqb (Furniture.id item)) ids
           then set_visible (negb (Furniture.visible item)) item
           else item) s.
Proof.
  intros Hnd. revert s. induction Hnd as [|i ids Hi Hnd IH]; intros s.
  - simpl. now rewrite map_id.
  - simpl fold_left. rewrite IH. unfold handleToggleFurniture.
    rewrite map_map. apply map_ext. intros item. simpl existsb.
    destruct (Furniture.id item =? i) eqn:E; simpl; [|reflexivity].
    apply String.eqb_eq in E.
    replace (existsb (String.eqb (Furniture.id item)) ids) with false;
      [reflexivity|].
    symmetry. apply not_true_iff_false. intros H.
    apply existsb_exists in H as (j & Hj & Ej).
    apply String.eqb_eq in Ej. congruence.
Qed.

Lemma NoDup_map_filter {A B : Type} (f : A -> B) (c : A -> bool)
  (l : list A) :
  NoDup (map f l) -> NoDup (map f (filter c l)).
Proof.
  induction l as [|a l IH]; simpl; intros Hnd; [constructor|].
  apply NoDup_cons_iff in Hnd as [Ha Hnd].
  destruct (c a); simpl; [|auto].
  constructor; [|auto]. intros Hin. apply Ha.
  apply in_map_iff in Hin as (x & <- & Hx). apply filter_In in Hx as [Hx _].
  now apply in_map.
Qed.

Lemma toggleAllClick_fold (furniture state : list Furniture.t) (allVisible : bool) :
  map (set_visible true)
    (fold_left
       (fun state f =>
          if negb (Bool.eqb allVisible (Furniture.visible f))
          then handleToggleFurniture (Furniture.id f) state
          else state)
       furniture state)
  = map (set_visible true) state.
Proof.
  revert state. induction furniture as [|f l IH]; intros state;
    [reflexivity|].
  simpl. rewrite IH.
  destruct (negb (Bool.eqb allVisible (Furniture.visible f)));
    [apply handleToggleFurniture_items | reflexivity].
Qed.

(** X7: With distinct ids, a click on the button while every item is visible
    (label "Hide All") changes nothing, and a click while some item is
    hidden (label "Show All") hides every item. *)
Theorem toggleAllClick_effect (furniture : list Furniture.t) :
  NoDup (map Furniture.id furniture) ->
  (toggleAllLabel furniture = "Hide All" ->
   toggleAllClick furniture = furniture) /\
  (toggleAllLabel furniture = "Show All" ->
   toggleAllClick furniture = map (set_visible false) furniture).
Proof.
  intros Hnd. unfold toggleAllLabel, toggleAllClick.
  destruct (forallb Furniture.visible furniture) eqn:Hall;
    (split; [|]); intros Hlabel; try discriminate.
  - rewrite fold_conditional.
    replace (filter _ furniture) with (@nil Furniture.t); [reflexivity|].
    symmetry. rewrite forallb_forall in Hall.
    induction furniture as [|f l IH]; [reflexivity|].
    simpl. rewrite (Hall f) by now left. simpl.
    apply IH.
    + simpl in Hnd. now apply NoDup_cons_iff in Hnd.
    + intros x Hx. apply Hall. now right.
  - rewrite fold_conditional, fold_toggle_ids, toggle_ids
      by now apply NoDup_map_filter.
    apply map_ext_in. intros item Hitem.
    destruct (existsb _ _) eqn:E.
    + apply existsb_exists in E as (i & Hi & Ei).
      apply String.eqb_eq in Ei. subst i.
      apply in_map_iff in Hi as (f & Ef & Hf).
      apply filter_In in Hf as [Hf Hvis].
      assert (f = item) by (apply (NoDup_ids_same furniture); auto).
      subst f. destruct (Furniture.visible item); [reflexivity | discriminate].
    + destruct (Furniture.visible item) eqn:V.
      * exfalso. apply not_true_iff_false in E. apply E.
        apply existsb_exists. exists (Furniture.id item).
        split; [|apply String.eqb_refl].
        apply in_map, filter_In. split; [exact Hitem|]. now rewrite V.
      * rewrite <- V. symmetry. apply set_visible_same.
Qed.

Lemma toggleAllClick_effect_witness :
  let furniture := [sample_item 2 1 false] in
  NoDup (map Furniture.id furniture) /\
  toggleAllLabel furniture = "Show All" /\
  toggleAllClick furniture = map (set_visible false) furniture.
Proof.
  assert (Hnd : NoDup (map Furniture.id [sample_item 2 1 false]))
    by (repeat constructor; intros []).
  destruct (toggleAllClick_effect [sample_item 2 1 false] Hnd) as [_ H].
  exact (conj Hnd (conj eq_refl (H eq_refl))).
Defined.

Lemma retrieveFurniture_ranked (query : string) (now : Z) :
  RAGRetrievalResult.furniture (retrieveFurniture query 10 now)
  = ranked (getFurnitureByStyle (detectRoomStyle query)).
Proof. reflexivity. Qed.

Lemma all_visible_fixed (l : list Furniture.t) :
  Forall (fun f => Furniture.visible f = true) l ->
  map (set_visible true) l = l.
Proof.
  induction 1 as [|f l Hf _ IH]; [reflexivity|].
  simpl. rewrite IH, <- Hf. now rewrite set_visible_same.
Qed.

Lemma ranked_stable (style : RoomStyle) :
  stably_sorted_descending
    (map (with_visible true) (slice (getFurnitureByStyle style) 0 10))
    (ranked (getFurnitureByStyle style)).
Proof.
  apply sort_by_confidence_stable.
  apply (selected_in_catalogs style). intros r Hr.
  exact (slice_incl _ _ _ _ Hr).
Qed.

Lemma ranked_visible (style : RoomStyle) :
  map (set_visible true) (ranked (getFurnitureByStyle style))
  = ranked (getFurnitureByStyle style).
Proof.
  apply all_visible_fixed.
  destruct (ranked_stable style) as [Hperm _].
  apply (Permutation_Forall Hperm), with_visible_all.
Qed.

(** Every state of the page is empty or a ranked catalog, up to the
    visibility flags. *)
Lemma reachable_ranked (state : list Furniture.t) :
  reachable state ->
  state = [] \/
  exists style,
    map (set_visible true) state = ranked (getFurnitureByStyle style).
Proof.
  induction 1 as [|state state' _ IH Hstep]; [now left|].
  destruct Hstep as [state query now | state id | state].
  - right. exists (detectRoomStyle query).
    rewrite retrieveFurniture_ranked. apply ranked_visible.
  - destruct IH as [->|[style IH]]; [now left|].
    right. exists style. now rewrite handleToggleFurniture_items.
  - destruct IH as [->|[style IH]]; [now left|].
    right. exists style. unfold toggleAllClick.
    now rewrite toggleAllClick_fold.
Qed.

Lemma ranked_ids (style : RoomStyle) :
  NoDup (map Furniture.id (ranked (getFurnitureByStyle style))) /\
  List.length (ranked (getFurnitureByStyle style)) = 10.
Proof.
  destruct style; (split; [|reflexivity]); vm_compute;
    repeat (constructor; [simpl; intuition discriminate|]); constructor.
Qed.

Lemma StronglySorted_map {A B : Type} (R : B -> B -> Prop) (f : A -> B)
  (l : list A) :
  StronglySorted R (map f l) -> StronglySorted (fun a b => R (f a) (f b)) l.
Proof.
  induction l as [|a l IH]; simpl; intros H; [constructor|].
  apply StronglySorted_inv in H as [Hs Ha]. constructor; [auto|].
  rewrite Forall_forall in *. intros b Hb. apply Ha. now apply in_map.
Qed.

(** X8: Whatever is retrieved, clicked and toggled, the furniture of the page
    keeps pairwise distinct ids, is empty or has 10 items, and stays
    ordered by descending confidence score. *)
Theorem reachable_invariant (state : list Furniture.t) :
  reachable state ->
  NoDup (map Furniture.id state) /\
  (state = [] \/ List.length state = 10) /\
  StronglySorted confidence_ge state.
Proof.
  intros Hreach. destruct (reachable_ranked state Hreach) as [->|[style E]].
  - repeat split; [constructor | now left | constructor].
  - destruct (ranked_ids style) as [Hnd Hlen]. split; [|split].
    + rewrite <- E, map_map in Hnd. exact Hnd.
    + right. now rewrite <- E, length_map in Hlen.
    + destruct (ranked_stable style) as (_ & Hsorted & _).
      rewrite <- E in Hsorted. exact (StronglySorted_map _ _ _ Hsorted).
Qed.

Lemma with_flags_visible (state ranked_items : list Furniture.t) :
  map (set_visible true) state = ranked_items ->
  state = with_flags (map Furniture.visible state) ranked_items.
Proof.
  intros <-. unfold with_flags.
  induction state as [|f l IH]; [reflexivity|].
  simpl. rewrite <- IH, set_visible_twice. now rewrite set_visible_same.
Qed.

Lemma all_flags_complete (flags : list bool) :
  In flags (all_flags (List.length flags)).
Proof.
  induction flags as [|v flags IH]; [now left|].
  simpl. apply in_or_app.
  destruct v; [left | right]; now apply in_map.
Qed.

Lemma stats_within_all_flags (style : RoomStyle) :
  forallb
    (fun flags =>
       stats_within 8.49 10.6
         (panelStats (with_flags flags (ranked (getFurnitureByStyle style))))
       && (RoomCoverage.itemCount
             (panelStats
                (with_flags flags (ranked (getFurnitureByStyle style))))
           <=? 10)%nat)
    (all_flags 10) = true.
Proof. destruct style; vm_compute; reflexivity. Qed.

(** X9: In every state of the page the panel shows numbers: a footprint from 0
    to 8.49 square metres, a coverage from 0 to 10.6 per cent, and at most
    10 visible items. *)
Theorem panelStats_bounds (state : list Furniture.t) :
  reachable state ->
  stats_within 8.49 10.6 (panelStats state) = true /\
  (RoomCoverage.itemCount (panelStats state) <= 10)%nat.
Proof.
  intros Hreach. destruct (reachable_ranked state Hreach) as [->|[style E]].
  - split; [vm_compute; reflexivity | simpl; lia].
  - pose proof (stats_within_all_flags style) as H.
    rewrite forallb_forall in H.
    specialize (H (map Furniture.visible state)).
    rewrite <- (with_flags_visible state _ E) in H.
    assert (Hin : In (map Furniture.visible state) (all_flags 10)).
    { replace 10%nat with (List.length (map Furniture.visible state)).
      - apply all_flags_complete.
      - rewrite length_map, <- (length_map (set_visible true)), E.
        apply ranked_ids. }
    specialize (H Hin). apply andb_true_iff in H as [H1 H2].
    split; [exact H1 | now apply Nat.leb_le].
Qed.

End PageStates.

(* ------------------------------------------------------------------ *)
(** ** The chat box *)

Section ChatBox.

Local Open Scope string_scope.

Lemma append_nil_r (s : string) : s ++ "" = s.
Proof. induction s as [|c s IH]; simpl; [reflexivity | now rewrite IH]. Qed.


Lemma strip_prefix_spec (token s rest : string) :
  strip_prefix token s = Some rest <-> s = token ++ rest.
Proof.
  revert s. induction token as [|a token IH]; intros s; simpl.
  - split; [intros H; now inversion H | now intros ->].
  - destruct s as [|b s]; [split; discriminate|].
    destruct (Ascii.eqb_spec a b) as [->|Hne].
    + rewrite IH. split; [now intros -> | intros H; now inversion H].
    + split; [discriminate | intros H; inversion H; congruence].
Qed.

Lemma strip_any_some (tokens : list string) (s rest : string) :
  strip_any tokens s = Some rest ->
  exists token, In token tokens /\ s = token ++ rest.
Proof.
  induction tokens as [|t tokens IH]; simpl; [discriminate|].
  destruct (strip_prefix t s) as [r|] eqn:E.
  - intros H. inversion H. subst r. exists t. split; [now left|].
    now apply strip_prefix_spec.
  - intros H. destruct (IH H) as (token & Hin & Hs). exists token. auto.
Qed.

Lemma strip_any_none (tokens : list string) (s : string) :
  strip_any tokens s = None ->
  forall token rest, In token tokens -> s <> token ++ rest.
Proof.
  induction tokens as [|t tokens IH]; simpl; [intros _ ? ? []|].
  destruct (strip_prefix t s) as [r|] eqn:E; [discriminate|].
  intros H token rest [<-|Hin] Hs.
  - apply strip_prefix_spec in Hs. congruence.
  - exact (IH H token rest Hin Hs).
Qed.

Lemma white_space_not_empty (space : string) :
  In space white_space -> exists c rest, space = String c rest.
Proof.
  intros H. cbv in H.
  repeat (destruct H as [<-|H]; [eexists _, _; reflexivity|]).
  destruct H.
Qed.

Lemma strip_white_space_token (space rest : string) :
  In space white_space -> strip_white_space (space ++ rest) = Some rest.
Proof.
  intros H. cbv in H.
  repeat (destruct H as [<-|H]; [reflexivity|]).
  destruct H.
Qed.

Lemma strip_white_space_shorter (s rest : string) :
  strip_white_space s = Some rest -> String.length rest < String.length s.
Proof.
  intros H. apply strip_any_some in H as (token & Hin & ->).
  destruct (white_space_not_empty _ Hin) as (c & t & ->).
  rewrite length_append. simpl. lia.
Qed.

(** What [trimStart] takes off is white space, and what it leaves does not
    start with white space. *)
Lemma trimStart_loop_spec (fuel : nat) (s : string) :
  String.length s <= fuel ->
  exists leading,
    white_space_only leading /\ s = leading ++ trimStart_loop fuel s /\
    strip_white_space (trimStart_loop fuel s) = None.
Proof.
  revert s. induction fuel as [|fuel IH]; intros s Hlen.
  - destruct s; [|simpl in Hlen; lia].
    exists "". split; [constructor | split; reflexivity].
  - simpl. destruct (strip_white_space s) as [rest|] eqn:E.
    + pose proof (strip_white_space_shorter _ _ E) as Hshort.
      destruct (IH rest ltac:(lia)) as (leading & Hws & Hrest & Hnone).
      apply strip_any_some in E as (token & Hin & ->).
      exists (token ++ leading).
      split; [now constructor | split; [|exact Hnone]].
      rewrite append_assoc. now f_equal.
    + exists "". split; [constructor | split; [reflexivity | exact E]].
Qed.

Lemma trimStart_loop_white_space (s : string) :
  white_space_only s ->
  forall fuel, String.length s <= fuel -> trimStart_loop fuel s = "".
Proof.
  induction 1 as [|token rest Hin Hrest IH]; intros fuel Hlen.
  - now destruct fuel.
  - destruct (white_space_not_empty _ Hin) as (c & t & Ht).
    rewrite length_append in Hlen.
    destruct fuel as [|fuel]; [subst; simpl in Hlen; lia|].
    simpl. rewrite strip_white_space_token by exact Hin.
    apply IH. subst. simpl in Hlen. lia.
Qed.

Lemma is_white_space_In (s : string) :
  is_white_space s = true <-> In s white_space.
Proof.
  unfold is_white_space. rewrite existsb_exists. split.
  - intros (t & Hin & E). apply String.eqb_eq in E. now subst.
  - intros H. exists s. split; [exact H | apply String.eqb_refl].
Qed.

(** What [trimEnd] takes off is white space, and what it leaves does not
    end with white space. *)
Lemma trimEnd_spec (s : string) :
  exists trailing, white_space_only trailing /\ s = trimEnd s ++ trailing.
Proof.
  induction s as [|c s (trailing & Hws & Hs)].
  - exists "". split; [constructor | reflexivity].
  - simpl. destruct (is_white_space (String c (trimEnd s))) eqn:E.
    + apply is_white_space_In in E.
      exists (String c (trimEnd s) ++ trailing).
      split; [now constructor|]. simpl. now rewrite <- Hs.
    + exists trailing. split; [exact Hws|]. simpl. now rewrite <- Hs.
Qed.

Lemma trimEnd_clean (s : string) :
  forall space before, In space white_space -> trimEnd s <> before ++ space.
Proof.
  induction s as [|c s IH]; intros space before Hin.
  - destruct (white_space_not_empty _ Hin) as (x & t & ->).
    destruct before; discriminate.
  - simpl. destruct (is_white_space (String c (trimEnd s))) eqn:E.
    + destruct (white_space_not_empty _ Hin) as (x & t & ->).
      destruct before; discriminate.
    + destruct before as [|b before]; simpl.
      * intros H. rewrite H in E. apply is_white_space_In in Hin. congruence.
      * intros H. inversion H as [[Hc Hrest]].
        exact (IH space before Hin Hrest).
Qed.

Lemma white_space_only_app (a b : string) :
  white_space_only a -> white_space_only b -> white_space_only (a ++ b).
Proof.
  induction 1 as [|token rest Hin _ IH]; intros Hb; [exact Hb|].
  rewrite append_assoc. constructor; auto.
Qed.

(** [trim] takes white space off both ends of a string, and all of it. *)
Lemma trim_spec (s : string) :
  exists leading trailing,
    white_space_only leading /\ white_space_only trailing /\
    s = leading ++ trim s ++ trailing /\
    (forall space rest, In space white_space -> trim s <> space ++ rest) /\
    (forall space before, In space white_space -> trim s <> before ++ space).
Proof.
  unfold trim.
  destruct (trimStart_loop_spec (String.length s) s (le_n _))
    as (leading & Hl & Hs & Hnone).
  fold (trimStart s) in Hs, Hnone.
  destruct (trimEnd_spec (trimStart s)) as (trailing & Ht & Hr).
  exists leading, trailing.
  split; [exact Hl | split; [exact Ht | split; [|split]]].
  - now rewrite <- Hr.
  - intros space rest Hin E. rewrite E, append_assoc in Hr.
    exact (strip_any_none _ _ Hnone space _ Hin Hr).
  - intros space before Hin. now apply trimEnd_clean.
Qed.

Lemma trim_empty (s : string) : trim s = "" <-> white_space_only s.
Proof.
  split.
  - intros E. destruct (trim_spec s) as (l & t & Hl & Ht & Hs & _).
    rewrite E in Hs. simpl in Hs. rewrite Hs. now apply white_space_only_app.
  - intros H. unfold trim, trimStart.
    now rewrite (trimStart_loop_white_space s H).
Qed.

(** *** The style of a trimmed query *)














(** X11: The chat box sends nothing while a retrieval is loading or when the
    input is empty or white space only, and then leaves the input as it
    is; otherwise it clears the input and sends what was typed without the
    white space at its two ends: the text sent is not empty and neither
    starts nor ends with a white space character.  White space is every
    character that ECMAScript counts as such, the no-break space and the
    line and paragraph separators among them: a no-break space alone is
    not sent. *)
Theorem handleSubmit_spec (input : string) (isLoading : bool) :
  (isLoading = true \/ white_space_only input ->
   handleSubmit input isLoading = (None, input)) /\
  (isLoading = false -> ~ white_space_only input ->
   exists leading sent trailing,
     input = leading ++ sent ++ trailing /\
     white_space_only leading /\ white_space_only trailing /\
     sent <> "" /\
     (forall space rest, In space white_space -> sent <> space ++ rest) /\
     (forall space before, In space white_space -> sent <> before ++ space) /\
     handleSubmit input isLoading = (Some sent, "")) /\
  handleSubmit (utf8_encode 0xA0) false = (None, utf8_encode 0xA0).
Proof.
  unfold handleSubmit. split; [|split; [|reflexivity]].
  - intros [->|E]; [now rewrite andb_false_r|].
    apply trim_empty in E. now rewrite E.
  - intros -> Hne.
    assert (Ht : trim input <> "") by (intros E; now apply Hne, trim_empty).
    destruct (trim_spec input) as (l & r & Hl & Hr & Hs & Hstart & Hend).
    exists l, (trim input), r.
    repeat (split; [assumption|]).
    destruct (trim input =? "") eqn:E; [|reflexivity].
    now apply String.eqb_eq in E.
Qed.

Lemma handleSubmit_spec_witness :
  (~ white_space_only "  Zen room " /\
   exists leading sent trailing,
     "  Zen room " = leading ++ sent ++ trailing /\
     handleSubmit "  Zen room " false = (Some sent, "")) /\
  (white_space_only (" " ++ utf8_encode 0xA0 ++ utf8_encode 0x2028) /\
   handleSubmit (" " ++ utf8_encode 0xA0 ++ utf8_encode 0x2028) false
   = (None, " " ++ utf8_encode 0xA0 ++ utf8_encode 0x2028)).
Proof.
  assert (Hne : ~ white_space_only "  Zen room ").
  { intros H. apply trim_empty in H. discriminate H. }
  assert (Hws : white_space_only
                  (" " ++ utf8_encode 0xA0 ++ utf8_encode 0x2028)).
  { apply trim_empty. reflexivity. }
  destruct (handleSubmit_spec "  Zen room " false) as (_ & Hsend & _).
  destruct (handleSubmit_spec
              (" " ++ utf8_encode 0xA0 ++ utf8_encode 0x2028) false)
    as (Hkeep & _).
  split.
  - split; [exact Hne|].
    destruct (Hsend eq_refl Hne)
      as (leading & sent & trailing & Hs & _ & _ & _ & _ & _ & H).
    exists leading, sent, trailing. split; [exact Hs | exact H].
  - split; [exact Hws | exact (Hkeep (or_intror Hws))].
Defined.

End ChatBox.

(* ------------------------------------------------------------------ *)
(** ** Sending a message *)

Section SendingMessages.

Local Open Scope string_scope.

(** X12: Whatever the message, the assistant's answer names the style detected
    in it and reports 10 furniture items; 10 items, all visible, are then
    on the page, and loading is over. *)
Theorem handleSendMessage_answer (message : string)
  (now_retrieval now_id now : Z) (page : Page.t) :
  let page' :=
    handleSendMessage_finish message now_retrieval now_id now page in
  exists answer,
    Page.chatMessages page' = (Page.chatMessages page ++ [answer])%list /\
    ChatMessage.role answer = assistant /\
    ChatMessage.content answer =
      "I've generated a " ++ style_string (detectRoomStyle message) ++
      " style living room with 10 furniture items. The furniture has been placed in the 3D viewer for you to explore!" /\
    List.length (Page.furniture page') = 10 /\
    Forall (fun f => Furniture.visible f = true) (Page.furniture page') /\
    Page.isLoading page' = false.
Proof.
  cbv zeta. unfold handleSendMessage_finish. cbv zeta.
  cbn [Page.chatMessages Page.furniture Page.isLoading].
  rewrite retrieveFurniture_ranked.
  destruct (ranked_ids (detectRoomStyle message)) as [_ Hlen].
  rewrite Hlen. eexists. split; [reflexivity|].
  repeat split; try reflexivity; try exact Hlen.
  destruct (ranked_stable (detectRoomStyle message)) as [Hperm _].
  apply (Permutation_Forall Hperm), with_visible_all.
Qed.

(** X13: When the clock does not run backwards between the two readings that
    make the ids, the user's message and the assistant's answer to it get
    different ids. *)
Theorem handleSendMessage_ids (message : string)
  (user_id user_now now_retrieval answer_id answer_now : Z) (page : Page.t) :
  (user_id <= answer_id)%Z ->
  let page' :=
    handleSendMessage_finish message now_retrieval answer_id answer_now
      (handleSendMessage_start message user_id user_now page) in
  exists sent answer,
    Page.chatMessages page' = (Page.chatMessages page ++ [sent; answer])%list /\
    ChatMessage.role sent = user /\
    ChatMessage.content sent = message /\
    ChatMessage.role answer = assistant /\
    ChatMessage.id sent <> ChatMessage.id answer.
Proof.
  intros Hclock. cbv zeta.
  unfold handleSendMessage_finish, handleSendMessage_start. cbv zeta.
  cbn [Page.chatMessages].
  eexists _, _. split; [now rewrite <- app_assoc|].
  repeat split. cbn [ChatMessage.id]. intros E.
  apply Number_toString_inj in E; lia.
Qed.

End SendingMessages.

(* ------------------------------------------------------------------ *)
(** ** Retrieval at the edges *)

Section RetrievalEdges.

Local Open Scope string_scope.

Lemma slice_negative_end {A : Type} (array : list A) (n : Z) :
  (n < 0)%Z ->
  slice array 0 n = firstn (Z.to_nat (Z.of_nat (List.length array) + n)) array.
Proof.
  intros Hn. unfold slice.
  replace (0 <? 0)%Z with false by reflexivity.
  replace (n <? 0)%Z with true by (symmetry; apply Z.ltb_lt; exact Hn).
  rewrite (Z.min_l 0) by lia. simpl skipn. rewrite Z.sub_0_r.
  f_equal. lia.
Qed.

Lemma catalog_length (style : RoomStyle) :
  List.length (getFurnitureByStyle style) = 10.
Proof. now destruct style. Qed.

(** X14: A negative [maxResults] is an index from the end of the catalog:
    [-k] leaves out the last [k] records, so [10 - k] items come back,
    ranked; [maxResults = 0] gives no item. *)
Theorem retrieveFurniture_negative (query : string) (maxResults now : Z) :
  (maxResults < 0)%Z ->
  let catalog := getFurnitureByStyle (detectRoomStyle query) in
  let result := RAGRetrievalResult.furniture
                  (retrieveFurniture query maxResults now) in
  stably_sorted_descending
    (map (with_visible true) (firstn (Z.to_nat (10 + maxResults)) catalog))
    result /\
  List.length result = Z.to_nat (10 + maxResults) /\
  RAGRetrievalResult.furniture (retrieveFurniture query 0 now) = [].
Proof.
  intros Hneg catalog result.
  assert (Hres : result =
                 sort by_confidence
                   (map (with_visible true)
                      (firstn (Z.to_nat (10 + maxResults)) catalog))).
  { unfold result, retrieveFurniture, catalog. simpl.
    rewrite slice_negative_end by exact Hneg.
    now rewrite catalog_length. }
  assert (Hsorted : stably_sorted_descending
                      (map (with_visible true)
                         (firstn (Z.to_nat (10 + maxResults)) catalog))
                      result).
  { rewrite Hres. apply sort_by_confidence_stable.
    apply (selected_in_catalogs (detectRoomStyle query)).
    intros r Hr. exact (In_firstn _ _ _ Hr). }
  split; [exact Hsorted | split].
  - destruct Hsorted as [Hperm _].
    rewrite <- (Permutation_length Hperm), length_map, length_firstn.
    unfold catalog. rewrite catalog_length. lia.
  - unfold retrieveFurniture. simpl.
    now rewrite slice_from_0 by lia.
Qed.

(** X15: The furniture retrieved depends on the query only through whether its
    style is "japanese", and not on the time: modern, minimalist,
    scandinavian, industrial and traditional queries all get the same
    items. *)
Theorem retrieveFurniture_style_only (query1 query2 : string)
  (maxResults now1 now2 : Z) :
  (detectRoomStyle query1 = japanese <-> detectRoomStyle query2 = japanese) ->
  RAGRetrievalResult.furniture (retrieveFurniture query1 maxResults now1)
  = RAGRetrievalResult.furniture (retrieveFurniture query2 maxResults now2).
Proof.
  intros H. unfold retrieveFurniture. simpl.
  destruct (detectRoomStyle query1), (detectRoomStyle query2);
    try reflexivity; destruct H as [H1 H2];
    try (specialize (H1 eq_refl); discriminate);
    try (specialize (H2 eq_refl); discriminate).
Qed.

(** X16: The furniture retrieved by category depends on which names are given,
    not on their order or on how often one is given. *)
Theorem retrieveFurnitureByCategory_names (categories1 categories2 : list string)
  (now1 now2 : Z) :
  (forall name, In name categories1 <-> In name categories2) ->
  RAGRetrievalResult.furniture (retrieveFurnitureByCategory categories1 now1)
  = RAGRetrievalResult.furniture (retrieveFurnitureByCategory categories2 now2).
Proof.
  intros H. rewrite !retrieveFurnitureByCategory_sort. do 2 f_equal.
  unfold matching_records. apply filter_ext. intros r.
  destruct (in_dec string_dec _ categories1) as [H1|H1],
           (in_dec string_dec _ categories2) as [H2|H2];
    try reflexivity; exfalso; [apply H2, H, H1 | apply H1, H, H2].
Qed.

Lemma retrieveFurnitureByCategory_names_witness :
  (forall name,
     In name ["sofa"; "table"; "sofa"] <-> In name ["table"; "sofa"]) /\
  RAGRetrievalResult.furniture
    (retrieveFurnitureByCategory ["sofa"; "table"; "sofa"] 1)
  = RAGRetrievalResult.furniture
      (retrieveFurnitureByCategory ["table"; "sofa"] 2).
Proof.
  assert (H : forall name,
            In name ["sofa"; "table"; "sofa"] <-> In name ["table"; "sofa"])
    by (intros name; simpl; tauto).
  split; [exact H|].
  exact (retrieveFurnitureByCategory_names _ _ 1 2 H).
Defined.

End RetrievalEdges.

(* ------------------------------------------------------------------ *)
(** ** Room dimensions are not checked *)

Section UncheckedDimensions.

Local Open Scope float_scope.

Lemma mul_opp_opp (a b : float) : (- a) * (- b) = a * b.
Proof.
  apply Prim2SF_inj.
  rewrite !FloatAxioms.mul_spec, !FloatAxioms.opp_spec.
  destruct (Prim2SF a) as [[]|[]| |[] ? ?], (Prim2SF b) as [[]|[]| |[] ? ?];
    reflexivity.
Qed.

(** X17: [calculateRoomCoverage] accepts negative room dimensions: a room of
    minus the width and minus the depth gets the statistics of the room
    itself. *)
Theorem calculateRoomCoverage_negated_room (furniture : list Furniture.t)
  (roomWidth roomDepth : float) :
  calculateRoomCoverage furniture (- roomWidth) (- roomDepth)
  = calculateRoomCoverage furniture roomWidth roomDepth.
Proof.
  unfold calculateRoomCoverage, roomArea. now rewrite mul_opp_opp.
Qed.

End UncheckedDimensions.

(* ------------------------------------------------------------------ *)
(** ** Style detection under edits of the query *)

Section StyleEdits.

Local Open Scope string_scope.



End StyleEdits.

(* ------------------------------------------------------------------ *)
(** ** Worked examples *)

Section Examples.

Local Open Scope float_scope.
Local Open Scope string_scope.

Example Math_round_examples :
  Math_round 2.5 = 3 /\ Math_round (-2.5) = -2 /\
  Math_round 0.5 = 1 /\ Math_round (-0.5) = -0 /\
  Math_round 0.49999999999999994 = 0 /\
  Math_round 849.4 = 849 /\ Math_round nan = nan /\
  Math_round infinity = infinity.
Proof. repeat split; vm_compute; reflexivity. Qed.

(** With [maxResults = 3] the default catalog yields its first three
    records: the Dining Table (0.88) is in, the Dining Chair that follows
    it in the catalog (0.90) is not. *)
Example retrieveFurniture_is_a_prefix :
  map Furniture.id
    (RAGRetrievalResult.furniture (retrieveFurniture "modern" 3 0))
  = ["sofa-001"; "table-001"; "table-002"].
Proof. vm_compute. reflexivity. Qed.

(** The whole default catalog, ranked: the two Dining Chairs tie at 0.90
    and keep their catalog order, ahead of the Dining Table. *)
Example retrieveFurniture_default_ranking :
  map Furniture.id
    (RAGRetrievalResult.furniture (retrieveFurniture "" 10 0))
  = ["sofa-001"; "table-001"; "chair-001"; "chair-002"; "table-002";
     "cabinet-001"; "shelf-001"; "lamp-001"; "sofa-002"; "table-003"].
Proof. vm_compute. reflexivity. Qed.

Example retrieveFurniture_empty_query :
  detectRoomStyle "" = modern /\
  map Furniture.name
    (RAGRetrievalResult.furniture (retrieveFurniture "" 5 0))
  = ["Modern L-Shaped Sofa"; "Coffee Table"; "Dining Chair"; "Dining Chair";
     "Dining Table"].
Proof. split; vm_compute; reflexivity. Qed.

Example detectRoomStyle_examples :
  detectRoomStyle "A ZEN corner, minimal and nordic" = japanese /\
  detectRoomStyle "Minimalist Scandinavian flat" = minimalist /\
  detectRoomStyle "nordic industrial loft" = scandinavian /\
  detectRoomStyle "Industrial, traditional" = industrial /\
  detectRoomStyle "a TRADITIONAL home" = traditional /\
  detectRoomStyle "cosy living room" = modern.
Proof. repeat split; vm_compute; reflexivity. Qed.

(** A query outside ASCII: "TATAM" followed by U+0130, the capital I with a
    dot above, which Unicode lower-cases to "i" followed by U+0307.  With
    Unicode data that say so, the query is japanese. *)
Example detectRoomStyle_dotted_capital_I :
  toLowerCase_unicode ("TATAM" ++ utf8_encode 0x130)
  = "tatami" ++ utf8_encode 0x307 ->
  detectRoomStyle ("TATAM" ++ utf8_encode 0x130) = japanese.
Proof.
  intros H. unfold detectRoomStyle, toLowerCase.
  replace (ascii_only ("TATAM" ++ utf8_encode 0x130)) with false
    by reflexivity.
  rewrite H. reflexivity.
Qed.

Example retrieveFurnitureByCategory_example :
  map Furniture.id
    (RAGRetrievalResult.furniture
       (retrieveFurnitureByCategory ["table"; "Sofa"; "chair"] 0))
  = ["table-001"; "chair-001"; "chair-002"; "table-002"; "table-003"].
Proof. vm_compute. reflexivity. Qed.

(** Two items of 2 and 3 square metres, the second hidden, in the 10 m by
    8 m room. *)
Example calculateRoomCoverage_hidden_item :
  calculateRoomCoverage [sample_item 2 1 true; sample_item 1.5 2 false] 10 8
  = {| RoomCoverage.totalFootprint := 2;
       RoomCoverage.coveragePercentage := 2.5;
       RoomCoverage.itemCount := 1 |}.
Proof. vm_compute. reflexivity. Qed.

(** The whole default catalog in the 10 m by 8 m room. *)
Example calculateRoomCoverage_default_catalog :
  calculateRoomCoverage
    (RAGRetrievalResult.furniture (retrieveFurniture "" 10 0)) 10 8
  = {| RoomCoverage.totalFootprint := 8.49;
       RoomCoverage.coveragePercentage := 10.6;
       RoomCoverage.itemCount := 10 |}.
Proof. vm_compute. reflexivity. Qed.

(** A room without width. *)
Example calculateRoomCoverage_zero_width :
  RoomCoverage.coveragePercentage (calculateRoomCoverage [] 0 8) = nan /\
  RoomCoverage.coveragePercentage
    (calculateRoomCoverage [sample_item 2 1 true] 0 8) = infinity.
Proof. split; vm_compute; reflexivity. Qed.

End Examples.

(* ------------------------------------------------------------------ *)
(** ** Worked examples of the page *)

Section PageExamples.

Local Open Scope string_scope.

Example rgbToHex_examples :
  rgbToHex 139 90 60 = "#8b5a3c" /\
  rgbToHex 0 7 255 = "#0007ff" /\
  rgbToHex 256 0 0 = "#1000000" /\
  rgbToHex (-1) 0 0 = "#-10000" /\
  rgbToHex 291 69 103 = rgbToHex 18 837 103.
Proof. repeat split; vm_compute; reflexivity. Qed.

(** Two visible items that share an id are flipped twice by the toggle-all
    button and stay visible. *)
Example toggleAllClick_shared_id :
  map Furniture.visible
    (toggleAllClick
       [sample_item 2 1 true; sample_item 1 1 true; sample_item 3 1 false])
  = [true; true; false].
Proof. vm_compute. reflexivity. Qed.

Example toggleAllClick_after_one_click :
  map Furniture.visible
    (toggleAllClick
       (handleToggleFurniture "chair-001"
          (RAGRetrievalResult.furniture (retrieveFurniture "" 10 0))))
  = repeat false 10.
Proof. vm_compute. reflexivity. Qed.

Example retrieveFurniture_minus_three :
  map Furniture.id
    (RAGRetrievalResult.furniture (retrieveFurniture "modern" (-3) 0))
  = ["sofa-001"; "table-001"; "chair-001"; "chair-002"; "table-002";
     "cabinet-001"; "shelf-001"].
Proof. vm_compute. reflexivity. Qed.

End PageExamples.

End DecoPlan.

(* ------------------------------------------------------------------ *)
(** ** The theorems at work

    The theorems that speak of [toLowerCase], applied to given queries,
    with [letters_only] for the Unicode data. *)

Section AtWork.

Local Open Scope string_scope.

#[local] Existing Instance letters_only.

(** "TATAM" followed by U+0130 is japanese; "M", U+0130, "N", U+0130, "MAL"
    is not minimalist, for the dots that U+0130 leaves behind the two "i"
    stand inside the keyword. *)
Example detectRoomStyle_capital_I_with_dot :
  detectRoomStyle ("TATAM" ++ utf8_encode 0x130) = japanese /\
  detectRoomStyle
    ("M" ++ utf8_encode 0x130 ++ "N" ++ utf8_encode 0x130 ++ "MAL") = modern.
Proof. split; reflexivity. Qed.

Lemma retrieveFurniture_spec_witness :
  (0 < 3)%Z /\
  let result := RAGRetrievalResult.furniture
                  (retrieveFurniture "modern living room" 3 0) in
  exists taken,
    Forall2 made_visible (firstn 3 MOCK_FURNITURE_DATABASE) taken /\
    stably_sorted_descending taken result /\
    List.length result = 3.
Proof.
  split; [reflexivity|].
  destruct (retrieveFurniture_spec "modern living room" 3 0)
    as (taken & H0 & H1 & _ & H2 & _).
  - reflexivity.
  - exists taken. split; [exact H0 | split; [exact H1 | exact H2]].
Defined.

Lemma detectRoomStyle_spec_witness :
  ContainsAny (toLowerCase "Zen and MINIMAL") japanese_keywords /\
  ContainsAny (toLowerCase "Zen and MINIMAL") minimalist_keywords /\
  detectRoomStyle "Zen and MINIMAL" = japanese.
Proof.
  assert (J : ContainsAny (toLowerCase "Zen and MINIMAL") japanese_keywords).
  { exists "zen". split; [simpl; tauto|]. now exists "", " and minimal". }
  assert (M : ContainsAny (toLowerCase "Zen and MINIMAL") minimalist_keywords).
  { exists "minimal". split; [simpl; tauto|]. now exists "zen and ", "". }
  destruct (detectRoomStyle_spec "Zen and MINIMAL")
    as (_ & _ & _ & _ & _ & _ & H & _).
  exact (conj J (conj M (H (conj J M)))).
Defined.

Lemma reachable_invariant_witness :
  let state :=
    toggleAllClick
      (handleToggleFurniture "chair-001"
         (RAGRetrievalResult.furniture (retrieveFurniture "zen" 10 0))) in
  reachable state /\ NoDup (map Furniture.id state).
Proof.
  assert (H : reachable
                (toggleAllClick
                   (handleToggleFurniture "chair-001"
                      (RAGRetrievalResult.furniture
                         (retrieveFurniture "zen" 10 0))))).
  { eapply reachable_step; [|apply step_toggle_all].
    eapply reachable_step; [|apply step_toggle].
    eapply reachable_step; [apply reachable_initial | apply step_retrieve]. }
  split; [exact H | exact (proj1 (reachable_invariant _ H))].
Defined.

Lemma panelStats_bounds_witness :
  let state :=
    handleToggleFurniture "sofa-001"
      (RAGRetrievalResult.furniture (retrieveFurniture "modern" 10 0)) in
  reachable state /\ stats_within 8.49 10.6 (panelStats state) = true.
Proof.
  assert (H : reachable
                (handleToggleFurniture "sofa-001"
                   (RAGRetrievalResult.furniture
                      (retrieveFurniture "modern" 10 0)))).
  { eapply reachable_step; [|apply step_toggle].
    eapply reachable_step; [apply reachable_initial | apply step_retrieve]. }
  split; [exact H | exact (proj1 (panelStats_bounds _ H))].
Defined.


Lemma handleSendMessage_ids_witness :
  (1730505600000 <= 1730505601500)%Z /\
  exists sent answer,
    Page.chatMessages
      (handleSendMessage_finish "Zen" 1730505601500 1730505601500
         1730505601500
         (handleSendMessage_start "Zen" 1730505600000 1730505600000
            (Page.mk [] false [])))
    = ([] ++ [sent; answer])%list /\
    ChatMessage.id sent <> ChatMessage.id answer.
Proof.
  assert (H : (1730505600000 <= 1730505601500)%Z) by lia.
  split; [exact H|].
  destruct (handleSendMessage_ids "Zen" 1730505600000 1730505600000
              1730505601500 1730505601500 1730505601500
              (Page.mk [] false []) H)
    as (sent & answer & E & _ & _ & _ & Hid).
  exists sent, answer. split; [exact E | exact Hid].
Defined.

Lemma retrieveFurniture_negative_witness :
  (-3 < 0)%Z /\
  List.length
    (RAGRetrievalResult.furniture (retrieveFurniture "modern" (-3) 0)) = 7.
Proof.
  split; [reflexivity|].
  destruct (retrieveFurniture_negative "modern" (-3) 0) as (_ & H & _);
    [reflexivity | exact H].
Defined.

Lemma retrieveFurniture_style_only_witness :
  (detectRoomStyle "industrial loft" = japanese <->
   detectRoomStyle "nordic home" = japanese) /\
  RAGRetrievalResult.furniture (retrieveFurniture "industrial loft" 10 1)
  = RAGRetrievalResult.furniture (retrieveFurniture "nordic home" 10 2).
Proof.
  assert (H : detectRoomStyle "industrial loft" = japanese <->
              detectRoomStyle "nordic home" = japanese)
    by (split; discriminate).
  split; [exact H|].
  exact (retrieveFurniture_style_only "industrial loft" "nordic home" 10 1 2 H).
Defined.


End AtWork.
